(** * GetHearthstoneData: the timer-triggered trinket statistics refresh

    A shallow embedding of [GetHearthstoneData/__init__.py] and the
    properties its design document states about it.

    The Python module talks to three outside parties: the blob container
    (the cached card list and the published result), the card catalogue API
    and the statistics API.  JSON payloads are ordinary Python values; they
    are modelled by the type [pyval].  Everything the interpreter can do
    with such a value at the places the module touches it -- including
    raising -- is written out, so that a run of [main] on an arbitrary
    payload has a definite outcome. *)

From Stdlib Require Import ZArith QArith Qabs String Ascii List Bool Lia.
From Stdlib Require Import DecimalString DecimalN DecimalPos Permutation Sorted.
Import ListNotations.

Open Scope string_scope.
Open Scope Z_scope.

Set Warnings "-register-all".

(* ================================================================== *)
(** ** Python values *)
(* ================================================================== *)

(** The values [json.loads] and [response.json()] hand out.  A [float] is a
    finite binary floating point number [(-1)^neg * m * 2^e]; keeping sign,
    mantissa and exponent apart makes the negative zero representable.
    The non-finite floats (which only the non-standard tokens [NaN] and
    [Infinity] or an out-of-range literal produce) are not part of the
    model.  A [dict] coming from JSON has string keys and remembers
    insertion order, hence an association list. *)
Inductive pyval : Type :=
| PNone
| PBool (b : bool)
| PInt (z : Z)
| PFloat (neg : bool) (m : N) (e : Z)
| PStr (s : string)
| PList (l : list pyval)
| PDict (d : list (string * pyval)).

(** The exception classes that can come up in a run.  [RequestException]
    stands for [requests.exceptions.RequestException] and its subclasses
    (transport errors, [HTTPError] from [raise_for_status], the JSON decoding
    error of [response.json()]); [StorageError] for what the Azure client
    raises; [JSONDecodeError] for a failing [json.loads]. *)
Inductive exn : Type :=
| TypeError
| AttributeError
| ValueError
| KeyError
| OverflowError
| JSONDecodeError
| RequestException
| StorageError.

Inductive res (A : Type) : Type :=
| Ok (a : A)
| Raise (e : exn).
Arguments Ok {A} a.
Arguments Raise {A} e.

Definition res_bind {A B} (r : res A) (f : A -> res B) : res B :=
  match r with
  | Ok a => f a
  | Raise e => Raise e
  end.

Declare Scope res_scope.
Delimit Scope res_scope with res.
Notation "x <- c ;; k" := (res_bind c (fun x => k))
  (at level 61, c at next level, right associativity) : res_scope.

(** [except requests.exceptions.RequestException] *)
Definition is_request_exception (e : exn) : bool :=
  match e with
  | RequestException => true
  | _ => false
  end.

(* ------------------------------------------------------------------ *)
(** *** Numbers *)

Definition float_val (neg : bool) (m : N) (e : Z) : Q :=
  inject_Z (if neg then - Z.of_N m else Z.of_N m) * Qpower (2 # 1) e.

(** The mathematical value of a number; [bool] is a subclass of [int]. *)
Definition num_val (v : pyval) : option Q :=
  match v with
  | PBool b => Some (inject_Z (if b then 1 else 0))
  | PInt z => Some (inject_Z z)
  | PFloat neg m e => Some (float_val neg m e)
  | _ => None
  end.

Definition is_number (v : pyval) : bool :=
  match num_val v with
  | Some _ => true
  | None => false
  end.

Definition Qltb (p q : Q) : bool :=
  match Qcompare p q with
  | Lt => true
  | _ => false
  end.

(* ------------------------------------------------------------------ *)
(** *** Equality and order *)

Definition assoc {V} (k : string) (d : list (string * V)) : option V :=
  match find (fun kv => String.eqb (fst kv) k) d with
  | Some kv => Some (snd kv)
  | None => None
  end.

(** [a == b].  Numbers of the three numeric types compare by exact value,
    two dicts are equal when they hold the same keys with equal values. *)
Fixpoint py_eq (a b : pyval) {struct a} : bool :=
  match a, b with
  | PNone, PNone => true
  | PStr s, PStr t => String.eqb s t
  | PList l, PList l' =>
      (fix all2 (l : list pyval) (l' : list pyval) {struct l} : bool :=
         match l, l' with
         | [], [] => true
         | x :: l, y :: l' => py_eq x y && all2 l l'
         | _, _ => false
         end) l l'
  | PDict d, PDict d' =>
      Nat.eqb (List.length d) (List.length d') &&
      (fix sub (d : list (string * pyval)) {struct d} : bool :=
         match d with
         | [] => true
         | (k, v) :: d =>
             match assoc k d' with
             | Some v' => py_eq v v' && sub d
             | None => false
             end
         end) d
  | (PBool _ | PInt _ | PFloat _ _ _), (PBool _ | PInt _ | PFloat _ _ _) =>
      match num_val a, num_val b with
      | Some p, Some q => Qeq_bool p q
      | _, _ => false
      end
  | _, _ => false
  end.

Definition string_ltb (s t : string) : bool :=
  match String.compare s t with
  | Lt => true
  | _ => false
  end.

(** [a < b].  Numbers are ordered by value, strings and lists
    lexicographically; every other pairing is a [TypeError]. *)
Fixpoint py_lt (a b : pyval) {struct a} : res bool :=
  match a, b with
  | PStr s, PStr t => Ok (string_ltb s t)
  | PList l, PList l' =>
      (fix lex (l : list pyval) (l' : list pyval) {struct l} : res bool :=
         match l, l' with
         | [], [] => Ok false
         | [], _ :: _ => Ok true
         | _ :: _, [] => Ok false
         | x :: l, y :: l' => if py_eq x y then lex l l' else py_lt x y
         end) l l'
  | (PBool _ | PInt _ | PFloat _ _ _), (PBool _ | PInt _ | PFloat _ _ _) =>
      match num_val a, num_val b with
      | Some p, Some q => Ok (Qltb p q)
      | _, _ => Raise TypeError
      end
  | _, _ => Raise TypeError
  end.

(** [bool(v)] *)
Definition truthy (v : pyval) : bool :=
  match v with
  | PNone => false
  | PBool b => b
  | PInt z => negb (z =? 0)
  | PFloat _ m _ => negb (m =? 0)%N
  | PStr s => negb (String.eqb s "")
  | PList l => negb (Nat.eqb (List.length l) 0)
  | PDict d => negb (Nat.eqb (List.length d) 0)
  end.

(** Lists and dicts cannot be dictionary keys. *)
Definition hashable (v : pyval) : bool :=
  match v with
  | PList _ | PDict _ => false
  | _ => true
  end.

(* ------------------------------------------------------------------ *)
(** *** Strings *)

(** A Python [str] is kept as its UTF-8 encoding.  The patterns this module
    searches for are ASCII, and an ASCII byte never occurs inside the
    encoding of another character, so searching and replacing on the bytes
    is searching and replacing on the characters. *)

(** [s.replace(old, new)] for a non-empty [old]: the occurrences are found
    from left to right and do not overlap.  [skip] counts the characters of a
    match that are still to be dropped. *)
Fixpoint replace_from (old new : string) (skip : nat) (s : string) : string :=
  match s with
  | EmptyString => EmptyString
  | String c s' =>
      match skip with
      | S k => replace_from old new k s'
      | O =>
          if String.prefix old s
          then new ++ replace_from old new (Nat.pred (String.length old)) s'
          else String c (replace_from old new O s')
      end
  end.

Definition replace (old new s : string) : string := replace_from old new O s.

(** [sub in s] on strings *)
Fixpoint contains (sub s : string) : bool :=
  String.prefix sub s ||
  match s with
  | EmptyString => false
  | String _ s' => contains sub s'
  end.

Definition upper_ascii (c : ascii) : ascii :=
  let n := N_of_ascii c in
  if ((97 <=? n) && (n <=? 122))%N then ascii_of_N (n - 32) else c.

(** [s.upper()].  The letters [a]..[z] are mapped to [A]..[Z]; the bytes of
    a character beyond ASCII are left as they are, which is what Python does
    for every character without case (digits, punctuation, CJK). *)
Fixpoint upper (s : string) : string :=
  match s with
  | EmptyString => EmptyString
  | String c s' => String (upper_ascii c) (upper s')
  end.

(** Number of bytes in the UTF-8 encoding of the character that starts
    with byte [c]. *)
Definition utf8_width (c : ascii) : nat :=
  let n := N_of_ascii c in
  if (n <? 192)%N then 1%nat
  else if (n <? 224)%N then 2%nat
  else if (n <? 240)%N then 3%nat
  else 4%nat.

Fixpoint take (n : nat) (s : string) : string :=
  match n, s with
  | S k, String c s' => String c (take k s')
  | _, _ => EmptyString
  end.

(** The characters of a string, which is what iterating over it yields.
    [pending] bytes of the current character have already been emitted. *)
Fixpoint chars_from (pending : nat) (s : string) : list string :=
  match s with
  | EmptyString => []
  | String c s' =>
      match pending with
      | S k => chars_from k s'
      | O => take (utf8_width c) s :: chars_from (Nat.pred (utf8_width c)) s'
      end
  end.

Definition chars (s : string) : list string := chars_from O s.

(** Decimal notation of a natural number, as [str(n)] prints it. *)
Definition dec (n : Z) : string := NilZero.string_of_uint (N.to_uint (Z.to_N n)).

(* ------------------------------------------------------------------ *)
(** *** Formatting with [.2f] *)

(** Nearest integer to a non-negative rational, ties to the even one: the
    rounding of the correctly rounded decimal conversion Python uses. *)
Definition round_half_even (q : Q) : Z :=
  let n := Qnum q in
  let d := Z.pos (Qden q) in
  let f := n / d in
  match Z.compare (2 * (n mod d)) d with
  | Lt => f
  | Gt => f + 1
  | Eq => if Z.even f then f else f + 1
  end.

(** The two digits after the point, with the leading zero. *)
Definition hundredths (k : Z) : string := (if k <? 10 then "0" else "") ++ dec k.

(** [format(x, '.2f')] for the float [(-1)^neg * m * 2^e]: the exact value
    is rounded to hundredths; the sign is printed even when the rounded
    digits are all zero. *)
Definition format_float_2f (neg : bool) (m : N) (e : Z) : string :=
  let n := round_half_even (float_val false m e * inject_Z 100) in
  (if neg then "-" else "") ++ dec (n / 100) ++ "." ++ hundredths (n mod 100).

(** [float(z)] for an [int]: the nearest number with a 53 bit mantissa,
    ties to even; [OverflowError] beyond the range of a double. *)
Definition float_of_int (z : Z) : res (bool * N * Z) :=
  let a := Z.abs z in
  let k := Z.log2 a + 1 - 53 in
  if k <=? 0 then Ok (z <? 0, Z.to_N a, 0)
  else
    let q := a / 2 ^ k in
    let r := a mod 2 ^ k in
    let half := 2 ^ (k - 1) in
    let q' := if (half <? r) || ((r =? half) && Z.odd q) then q + 1 else q in
    if 2 ^ 1024 <=? q' * 2 ^ k then Raise OverflowError
    else Ok (z <? 0, Z.to_N q', k).

(** [f"{v:.2f}"].  An [int] (and so a [bool]) is converted to [float] first;
    a [str] does not know the format code, the other types take no format
    string at all. *)
Definition format_2f (v : pyval) : res string :=
  match v with
  | PFloat neg m e => Ok (format_float_2f neg m e)
  | PInt z =>
      match float_of_int z with
      | Ok (neg, m, e) => Ok (format_float_2f neg m e)
      | Raise x => Raise x
      end
  | PBool b => Ok (format_float_2f false (if b then 1 else 0) 0)
  | PStr _ => Raise ValueError
  | PNone | PList _ | PDict _ => Raise TypeError
  end.

(* ------------------------------------------------------------------ *)
(** *** Attribute access, iteration, membership, subscription *)

(** [v.get(key, default)]: only a dict has the method. *)
Definition py_get (v : pyval) (key : string) (default : pyval) : res pyval :=
  match v with
  | PDict d =>
      match assoc key d with
      | Some x => Ok x
      | None => Ok default
      end
  | _ => Raise AttributeError
  end.

(** [v.upper()] and [v.replace(old, new)]: only a str has the methods. *)
Definition py_upper (v : pyval) : res string :=
  match v with
  | PStr s => Ok (upper s)
  | _ => Raise AttributeError
  end.

Definition py_str (v : pyval) : res string :=
  match v with
  | PStr s => Ok s
  | _ => Raise AttributeError
  end.

(** [for x in v]: a list yields its items, a dict its keys, a str its
    characters; nothing else is iterable. *)
Definition py_iter (v : pyval) : res (list pyval) :=
  match v with
  | PList l => Ok l
  | PDict d => Ok (map (fun kv => PStr (fst kv)) d)
  | PStr s => Ok (map PStr (chars s))
  | _ => Raise TypeError
  end.

(** [key in v] for a str [key] *)
Definition py_contains (key : string) (v : pyval) : res bool :=
  match v with
  | PDict d =>
      match assoc key d with
      | Some _ => Ok true
      | None => Ok false
      end
  | PList l => Ok (existsb (py_eq (PStr key)) l)
  | PStr s => Ok (contains key s)
  | _ => Raise TypeError
  end.

(** [v[key]] for a str [key] *)
Definition py_getitem (v : pyval) (key : string) : res pyval :=
  match v with
  | PDict d =>
      match assoc key d with
      | Some x => Ok x
      | None => Raise KeyError
      end
  | _ => Raise TypeError
  end.

(* ================================================================== *)
(** ** The card map *)
(* ================================================================== *)

(** [card_map] is a dict whose keys are whatever the cards carry as
    ["dbfId"].  Two keys are the same key when they are equal in the sense of
    [==]; assigning to a key that is present replaces the value and leaves
    the entry where it is. *)
Definition card_map : Type := list (pyval * pyval).

Fixpoint cm_lookup (k : pyval) (m : card_map) : option pyval :=
  match m with
  | [] => None
  | (k', v) :: m' => if py_eq k' k then Some v else cm_lookup k m'
  end.

Fixpoint cm_set (k v : pyval) (m : card_map) : card_map :=
  match m with
  | [] => [(k, v)]
  | (k', v') :: m' => if py_eq k' k then (k', v) :: m' else (k', v') :: cm_set k v m'
  end.

(** [k in card_map] and [card_map.get(k)]; both hash [k] first. *)
Definition cm_mem (k : pyval) (m : card_map) : res bool :=
  if hashable k
  then Ok (match cm_lookup k m with Some _ => true | None => false end)
  else Raise TypeError.

Definition cm_get (k : pyval) (m : card_map) : res pyval :=
  if hashable k
  then Ok (match cm_lookup k m with Some v => v | None => PNone end)
  else Raise TypeError.

(** The body of the comprehension
    [{card['dbfId']: card for card in card_data if 'dbfId' in card}],
    one card at a time. *)
Fixpoint card_map_from (cards : list pyval) (acc : card_map) : res card_map :=
  match cards with
  | [] => Ok acc
  | card :: rest =>
      (has <- py_contains "dbfId" card ;;
       if has : bool
       then k <- py_getitem card "dbfId" ;;
            if hashable k then card_map_from rest (cm_set k card acc)
            else Raise TypeError
       else card_map_from rest acc)%res
  end.

Definition build_card_map (card_data : pyval) : res card_map :=
  (cards <- py_iter card_data ;; card_map_from cards [])%res.

(* ================================================================== *)
(** ** The outside world *)
(* ================================================================== *)

Inductive level : Type := INFO | WARNING | ERROR.

(** The messages the module logs, one constructor per [logging] call of
    the source, with the values the message interpolates. *)
Inductive message : Type :=
| MsgPastDue                      (* 'The timer is past due!' *)
| MsgExecuted                     (* 'Python timer trigger function executed.' *)
| MsgNoConnectionString           (* main, line 71 *)
| MsgConnectFailed                (* main, line 77 *)
| MsgLoadingFromBlob              (* loader, line 26 *)
| MsgBlobReadFailed (e : exn)     (* loader, line 33 *)
| MsgDownloadingCards             (* loader, line 35 *)
| MsgUploadingCards               (* loader, line 41 *)
| MsgCardsApiFailed               (* loader, line 47 *)
| MsgFetchingStats                (* stats, line 56 *)
| MsgStatsApiFailed               (* stats, line 62 *)
| MsgForcingUpdate                (* main, line 90 *)
| MsgTrinketNotFound (dbf_id : pyval)  (* main, line 114 *)
| MsgSaved                        (* main, line 125 *)
| MsgSaveFailed (e : exn).        (* main, line 127 *)

(** What a run does to the outside, in the order it does it. *)
Inductive event : Type :=
| Log (lvl : level) (msg : message)
| BlobExists                      (* blob_client.exists() *)
| BlobDownload                    (* blob_client.download_blob(...).readall() *)
| CardsGet                        (* requests.get(CARD_DATA_URL) *)
| CardsUpload (data : string)     (* blob_client.upload_blob(data, overwrite=True) *)
| StatsGet                        (* requests.get(HSREPLAY_API_URL, headers=...) *)
| ResultUpload (data : string).   (* container_client.upload_blob(name=..., data=...) *)

(** How the outside answers during one run.  Every request below is issued
    at most once per run (see [cards_get_at_most_once] for the catalogue), so
    one answer per kind of request describes the run completely.
    [None] as a response is any failure that surfaces as a
    [RequestException]. *)
Record Env : Type := {
  past_due : bool;                       (* mytimer.past_due *)
  CONNECTION_STRING : option string;     (* os.environ.get(...) *)
  connect_error : bool;                  (* from_connection_string raises *)
  exists_error : bool;                   (* blob_client.exists() raises *)
  download_error : bool;                 (* download_blob / readall raises *)
  cards_response : option pyval;         (* the card catalogue API *)
  cards_upload_error : bool;             (* upload of the card blob raises *)
  stats_response : option pyval;         (* the statistics API *)
  result_upload_error : bool             (* upload of the result blob raises *)
}.

(** The container. *)
Record state : Type := {
  card_blob : option string;        (* CARD_DATA_BLOB_NAME *)
  result_blob : option string       (* PROCESSED_DATA_BLOB_NAME *)
}.

(** How a computation ends: with a value or an exception, a container and
    the events it caused.  What was done before an exception stays done. *)
Record outcome (A : Type) : Type := {
  result : res A;
  final : state;
  events : list event
}.
Arguments result {A} o.
Arguments final {A} o.
Arguments events {A} o.
Arguments Build_outcome {A} result final events.

(** A computation that reads and writes the container, causes events and
    may raise. *)
Definition M (A : Type) : Type := state -> outcome A.

Definition ret {A} (a : A) : M A :=
  fun st => {| result := Ok a; final := st; events := [] |}.

Definition bind {A B} (m : M A) (f : A -> M B) : M B :=
  fun st =>
    let o := m st in
    match result o with
    | Ok a =>
        let o' := f a (final o) in
        {| result := result o'; final := final o'; events := events o ++ events o' |}
    | Raise e => {| result := Raise e; final := final o; events := events o |}
    end.

Definition lift {A} (r : res A) : M A :=
  fun st => {| result := r; final := st; events := [] |}.

Definition emit (ev : event) : M unit :=
  fun st => {| result := Ok tt; final := st; events := [ev] |}.

Definition log (lvl : level) (msg : message) : M unit := emit (Log lvl msg).

(** [try: body  except <classes>: handler] *)
Definition try_except {A} (body : M A) (catches : exn -> bool)
  (handler : exn -> M A) : M A :=
  fun st =>
    let o := body st in
    match result o with
    | Ok a => o
    | Raise e =>
        if catches e
        then let o' := handler e (final o) in
             {| result := result o'; final := final o'; events := events o ++ events o' |}
        else o
    end.

(** [except Exception] *)
Definition any_exception (e : exn) : bool := true.

Declare Scope io_scope.
Delimit Scope io_scope with io.
Notation "x <- c ;; k" := (bind c (fun x => k))
  (at level 61, c at next level, right associativity) : io_scope.
Notation "c ;; k" := (bind c (fun _ => k))
  (at level 61, right associativity) : io_scope.
Notation "' pat <- c ;; k" := (bind c (fun x => match x with pat => k end))
  (at level 61, pat pattern, c at next level, right associativity) : io_scope.

(* ------------------------------------------------------------------ *)
(** *** The requests a run can issue *)

Definition get_card_blob : M (option string) :=
  fun st => {| result := Ok (card_blob st); final := st; events := [] |}.

Definition put_card_blob (data : string) : M unit :=
  fun st => {| result := Ok tt;
               final := {| card_blob := Some data; result_blob := result_blob st |};
               events := [] |}.

Definition put_result_blob (data : string) : M unit :=
  fun st => {| result := Ok tt;
               final := {| card_blob := card_blob st; result_blob := Some data |};
               events := [] |}.

Definition blob_exists (env : Env) : M bool :=
  (emit BlobExists ;;
   if exists_error env then lift (Raise StorageError)
   else blob <- get_card_blob ;;
        ret (match blob with Some _ => true | None => false end))%io.

Definition download_blob (env : Env) : M string :=
  (emit BlobDownload ;;
   if download_error env then lift (Raise StorageError)
   else blob <- get_card_blob ;;
        match blob with
        | Some text => ret text
        | None => lift (Raise StorageError)
        end)%io.

Definition upload_card_blob (env : Env) (data : string) : M unit :=
  (emit (CardsUpload data) ;;
   if cards_upload_error env then lift (Raise StorageError)
   else put_card_blob data)%io.

Definition upload_result_blob (env : Env) (data : string) : M unit :=
  (emit (ResultUpload data) ;;
   if result_upload_error env then lift (Raise StorageError)
   else put_result_blob data)%io.

(** [requests.get(url); raise_for_status(); response.json()] *)
Definition requests_get_json (ev : event) (response : option pyval) : M pyval :=
  (emit ev ;;
   match response with
   | Some payload => ret payload
   | None => lift (Raise RequestException)
   end)%io.

(* ================================================================== *)
(** ** The module *)
(* ================================================================== *)

Inductive reply : Type :=
| ServerConfigError       (* main, line 72 *)
| StorageUnreachable      (* main, line 78 *)
| NoCardData              (* main, line 82 *)
| NoTrinketStats          (* main, line 86 *)
| CardUpdateFailed.       (* main, line 93 *)

(** [func.HttpResponse(body, status_code=...)] *)
Record HttpResponse : Type := {
  body : reply;
  status_code : Z
}.

(** [not card_map], where [card_map] is [None] or a dict *)
Definition cm_truthy (m : option card_map) : bool :=
  match m with
  | Some (_ :: _) => true
  | _ => false
  end.

Definition the_dict (m : option card_map) : card_map :=
  match m with
  | Some cm => cm
  | None => []
  end.

(** [any(t.get("trinket_dbf_id") not in card_map for t in trinket_stats)]:
    stops at the first record whose key is missing. *)
Fixpoint any_missing (cm : card_map) (stats : list pyval) : res bool :=
  match stats with
  | [] => Ok false
  | t :: rest =>
      (k <- py_get t "trinket_dbf_id" PNone ;;
       present <- cm_mem k cm ;;
       if present : bool then any_missing cm rest else Ok true)%res
  end.

(** Assignment to a key of a dict with string keys. *)
Fixpoint dict_set (k : string) (v : pyval) (d : list (string * pyval))
  : list (string * pyval) :=
  match d with
  | [] => [(k, v)]
  | (k', v') :: d' =>
      if String.eqb k' k then (k', v) :: d' else (k', v') :: dict_set k v d'
  end.

(** [f"{i+1}st"] *)
Definition place_label (i : nat) : string := dec (Z.of_nat i + 1) ++ "st".

(** [{f"{i+1}st": val for i, val in enumerate(values)}], from index [i] on *)
Fixpoint placement_dist_from (i : nat) (values : list pyval)
  (acc : list (string * pyval)) : list (string * pyval) :=
  match values with
  | [] => acc
  | val :: rest => placement_dist_from (S i) rest (dict_set (place_label i) val acc)
  end.

Definition placement_dist (values : list pyval) : list (string * pyval) :=
  placement_dist_from O values [].

(** The chain of [replace] calls of line 108.  In the Python source the
    first pattern is written ["\\n"]: a backslash followed by the letter n. *)
Definition clean_text (s : string) : string :=
  replace "</i>" "" (replace "<i>" "" (replace "</b>" "" (replace "<b>" ""
    (replace "\n" " " s)))).

(** Lines 101 to 111: the record built for a trinket found in the card
    map.  The entries are evaluated in the order they are written. *)
Definition combined_data (card_info trinket dbf_id : pyval) : res pyval :=
  (dist <- py_get trinket "final_placement_distribution" (PList []) ;;
   values <- py_iter dist ;;
   name <- py_get card_info "name" PNone ;;
   avg <- py_get trinket "avg_final_placement" PNone ;;
   rate <- py_get trinket "pick_rate" (PInt 0) ;;
   rate_s <- format_2f rate ;;
   tier <- py_get trinket "tier" (PStr "N/A") ;;
   tier_s <- py_upper tier ;;
   group <- py_get trinket "group" PNone ;;
   text <- py_get card_info "text" (PStr "") ;;
   text_s <- py_str text ;;
   Ok (PDict [ ("name", name);
               ("avg_placement", avg);
               ("pick_rate", PStr (rate_s ++ "%"));
               ("tier", PStr tier_s);
               ("group", group);
               ("text", PStr (clean_text text_s));
               ("placement_dist", PDict (placement_dist values));
               ("dbf_id", dbf_id) ]))%res.

(** Lines 96 to 114: the loop over the statistics. *)
Fixpoint join (cm : card_map) (stats : list pyval) (processed : list pyval)
  : M (list pyval) :=
  match stats with
  | [] => ret processed
  | trinket :: rest =>
      (dbf_id <- lift (py_get trinket "trinket_dbf_id" PNone) ;;
       card_info <- lift (cm_get dbf_id cm) ;;
       if truthy card_info
       then combined <- lift (combined_data card_info trinket dbf_id) ;;
            join cm rest (processed ++ [combined])
       else log WARNING (MsgTrinketNotFound dbf_id) ;;
            join cm rest processed)%io
  end.

(** [sorted(items, key=...)].  The keys are computed first; the items are
    then put in order by a stable insertion that asks [<] of the keys and
    lets its [TypeError] through.  On keys that [<] orders totally (numbers,
    strings) every stable sort returns this list. *)
Fixpoint insert_keyed (kx : pyval * pyval) (l : list (pyval * pyval))
  : res (list (pyval * pyval)) :=
  match l with
  | [] => Ok [kx]
  | ky :: l' =>
      (lt <- py_lt (fst kx) (fst ky) ;;
       if lt : bool then Ok (kx :: ky :: l')
       else r <- insert_keyed kx l' ;; Ok (ky :: r))%res
  end.

Fixpoint sort_keyed (l acc : list (pyval * pyval)) : res (list (pyval * pyval)) :=
  match l with
  | [] => Ok acc
  | kx :: rest => (acc' <- insert_keyed kx acc ;; sort_keyed rest acc')%res
  end.

Fixpoint with_keys (key : pyval -> res pyval) (l : list pyval)
  : res (list (pyval * pyval)) :=
  match l with
  | [] => Ok []
  | x :: rest =>
      (k <- key x ;; r <- with_keys key rest ;; Ok ((k, x) :: r))%res
  end.

Definition sorted (key : pyval -> res pyval) (l : list pyval) : res (list pyval) :=
  (keyed <- with_keys key l ;;
   s <- sort_keyed keyed [] ;;
   Ok (map snd s))%res.

(** [lambda x: x["avg_placement"]] *)
Definition avg_placement (x : pyval) : res pyval := py_getitem x "avg_placement".

Section Pipeline.

(** The [json] library: [json.loads] (which fails on text that is not
    JSON), [json.dumps(v, ensure_ascii=False)] and
    [json.dumps(v, ensure_ascii=False, indent=2)]. *)
Variable json_loads : string -> option pyval.
Variable json_dumps : pyval -> string.
Variable json_dumps_indent2 : pyval -> string.

Definition loads (text : string) : res pyval :=
  match json_loads text with
  | Some v => Ok v
  | None => Raise JSONDecodeError
  end.

(** Lines 17 to 48.  The result is the pair [(card_map, updated)], with
    [None] for the Python [None]. *)
Definition get_card_data_and_map (env : Env) (force_update : bool)
  : M (option card_map * bool) :=
  (cached <- (if negb force_update then blob_exists env else ret false) ;;
   from_blob <-
     (if cached : bool
      then log INFO MsgLoadingFromBlob ;;
           try_except
             (text <- download_blob env ;;
              card_data <- lift (loads text) ;;
              cm <- lift (build_card_map card_data) ;;
              ret (Some cm))
             any_exception
             (fun e => log WARNING (MsgBlobReadFailed e) ;; ret None)
      else ret None) ;;
   match from_blob with
   | Some cm => ret (Some cm, false)
   | None =>
       log INFO MsgDownloadingCards ;;
       try_except
         (card_data <- requests_get_json CardsGet (cards_response env) ;;
          log INFO MsgUploadingCards ;;
          upload_card_blob env (json_dumps card_data) ;;
          cm <- lift (build_card_map card_data) ;;
          ret (Some cm, true))
         is_request_exception
         (fun _ => log ERROR MsgCardsApiFailed ;; ret (None, false))
   end)%io.

(** Lines 50 to 63.  [PNone] is the Python [None]. *)
Definition get_trinket_stats (env : Env) : M pyval :=
  (log INFO MsgFetchingStats ;;
   try_except
     (requests_get_json StatsGet (stats_response env))
     is_request_exception
     (fun _ => log ERROR MsgStatsApiFailed ;; ret PNone))%io.

(** Lines 88 to 93: the check for trinkets the card map does not know and
    the forced update.  The result is the card map to join with, or the
    response the run ends with. *)
Definition refresh_if_missing (env : Env) (cm : card_map) (was_updated : bool)
  (trinket_stats : pyval) : M (HttpResponse + card_map) :=
  (stats <- lift (py_iter trinket_stats) ;;
   missing_trinkets_exist <- lift (any_missing cm stats) ;;
   if missing_trinkets_exist && negb was_updated
   then log INFO MsgForcingUpdate ;;
        ' (card_map', _) <- get_card_data_and_map env true ;;
        if negb (cm_truthy card_map')
        then ret (inl {| body := CardUpdateFailed; status_code := 500 |})
        else ret (inr (the_dict card_map'))
   else ret (inr cm))%io.

(** Lines 95 to 127: join, sort, publish. *)
Definition process_and_save (env : Env) (cm : card_map) (trinket_stats : pyval)
  : M unit :=
  (stats <- lift (py_iter trinket_stats) ;;
   processed_trinkets <- join cm stats [] ;;
   sorted_trinkets <- lift (sorted avg_placement processed_trinkets) ;;
   try_except
     (upload_result_blob env (json_dumps_indent2 (PList sorted_trinkets)) ;;
      log INFO MsgSaved)
     any_exception
     (fun e => log ERROR (MsgSaveFailed e)))%io.

(** [not CONNECTION_STRING] *)
Definition connection_string_set (env : Env) : bool :=
  match CONNECTION_STRING env with
  | Some s => negb (String.eqb s "")
  | None => false
  end.

(** Lines 65 to 127.  The result is what the function returns: a response
    on the early exits, [None] at the end. *)
Definition main (env : Env) : M (option HttpResponse) :=
  ((if past_due env then log INFO MsgPastDue else ret tt) ;;
   log INFO MsgExecuted ;;
   if negb (connection_string_set env)
   then log ERROR MsgNoConnectionString ;;
        ret (Some {| body := ServerConfigError; status_code := 500 |})
   else
   if connect_error env
   then log ERROR MsgConnectFailed ;;
        ret (Some {| body := StorageUnreachable; status_code := 500 |})
   else
   ' (card_map, was_updated) <- get_card_data_and_map env false ;;
   if negb (cm_truthy card_map)
   then ret (Some {| body := NoCardData; status_code := 500 |})
   else
   trinket_stats <- get_trinket_stats env ;;
   if negb (truthy trinket_stats)
   then ret (Some {| body := NoTrinketStats; status_code := 500 |})
   else
   refreshed <- refresh_if_missing env (the_dict card_map) was_updated trinket_stats ;;
   match refreshed with
   | inl response => ret (Some response)
   | inr cm => process_and_save env cm trinket_stats ;; ret None
   end)%io.


(* ================================================================== *)
(** ** Vocabulary of the properties *)
(* ================================================================== *)

(** What the [try] block of lines 27 to 31 computes when the blob is
    reported to exist: the card map, or the exception the block ends with. *)
Definition cache_read (env : Env) (st : state) : res card_map :=
  if download_error env then Raise StorageError
  else match card_blob st with
       | Some text => (card_data <- loads text ;; build_card_map card_data)%res
       | None => Raise StorageError
       end.

Definition is_cards_get (ev : event) : bool :=
  match ev with
  | CardsGet => true
  | _ => false
  end.

(** Number of requests to the card catalogue API among the events. *)
Definition cards_gets (evs : list event) : nat := List.length (filter is_cards_get evs).

Definition is_log (ev : event) : bool :=
  match ev with
  | Log _ _ => true
  | _ => false
  end.

Definition is_stats_get (ev : event) : bool :=
  match ev with
  | StatsGet => true
  | _ => false
  end.

(** Number of requests to the statistics API among the events. *)
Definition stats_gets (evs : list event) : nat := List.length (filter is_stats_get evs).

Definition is_forcing_update (ev : event) : bool :=
  match ev with
  | Log INFO MsgForcingUpdate => true
  | _ => false
  end.

(** Number of times the forced update of lines 90 and 91 was entered. *)
Definition forced_updates (evs : list event) : nat :=
  List.length (filter is_forcing_update evs).

(** The texts handed to the upload of the result blob. *)
Fixpoint published (evs : list event) : list string :=
  match evs with
  | [] => []
  | ResultUpload data :: rest => data :: published rest
  | _ :: rest => published rest
  end.

(** [t.get("trinket_dbf_id")] of a statistics record *)
Definition stat_key (t : pyval) : pyval :=
  match t with
  | PDict d =>
      match assoc "trinket_dbf_id" d with
      | Some k => k
      | None => PNone
      end
  | _ => PNone
  end.

(** The join key of [t] is a key of the card map. *)
Definition known (cm : card_map) (t : pyval) : bool :=
  match cm_lookup (stat_key t) cm with
  | Some _ => true
  | None => false
  end.

Definition unknown (cm : card_map) (t : pyval) : bool := negb (known cm t).

Definition absent_or {V} (ok : V -> bool) (o : option V) : bool :=
  match o with
  | Some v => ok v
  | None => true
  end.

Definition is_str (v : pyval) : bool :=
  match v with
  | PStr _ => true
  | _ => false
  end.

Definition is_list (v : pyval) : bool :=
  match v with
  | PList _ => true
  | _ => false
  end.

(** A number [.2f] formats without overflow: every float, and the ints a
    float represents exactly. *)
Definition is_rate (v : pyval) : bool :=
  match v with
  | PFloat _ _ _ | PBool _ => true
  | PInt z => Z.abs z <? 2 ^ 53
  | _ => false
  end.

(** A Trinket Stat Record of the data model: an object whose join key can
    be looked up, with a number as [avg_final_placement] and, where
    present, a number as [pick_rate], a string as [tier] and a sequence as
    [final_placement_distribution]. *)
Definition is_stat_record (t : pyval) : bool :=
  match t with
  | PDict d =>
      absent_or hashable (assoc "trinket_dbf_id" d) &&
      match assoc "avg_final_placement" d with
      | Some a => is_number a
      | None => false
      end &&
      absent_or is_rate (assoc "pick_rate" d) &&
      absent_or is_str (assoc "tier" d) &&
      absent_or is_list (assoc "final_placement_distribution" d)
  | _ => false
  end.


(** A Card Record of the data model: such an object whose ["text"], where
    present, is a string. *)
Definition is_card_record (c : pyval) : bool :=
  match c with
  | PDict d => absent_or hashable (assoc "dbfId" d) && absent_or is_str (assoc "text" d)
  | _ => false
  end.


(** Every entry of the card map is a Card Record filed under its own
    ["dbfId"]. *)
Definition catalog_entry_ok (kv : pyval * pyval) : bool :=
  is_card_record (snd kv) &&
  match snd kv with
  | PDict d => match assoc "dbfId" d with Some _ => true | None => false end
  | _ => false
  end.

Definition catalog_ok (cm : card_map) : bool := forallb catalog_entry_ok cm.

(** The number an output record is sorted by. *)
Definition placement_value (x : pyval) : option Q :=
  match avg_placement x with
  | Ok k => num_val k
  | Raise _ => None
  end.

Definition placement_le (a b : pyval) : Prop :=
  match placement_value a, placement_value b with
  | Some p, Some q => (p <= q)%Q
  | _, _ => False
  end.




(** An item with the key [sorted] computed for it. *)
Definition keyed_ok (kx : pyval * pyval) : Prop :=
  is_number (fst kx) = true /\ avg_placement (snd kx) = Ok (fst kx).

Definition keyed_le (a b : pyval * pyval) : Prop := placement_le (snd a) (snd b).

(** An output record that carries a number to be sorted by. *)
Definition has_placement (o : pyval) : Prop :=
  exists avg, avg_placement o = Ok avg /\ is_number avg = true.

(** The labels of the places [i], [i+1], ... paired with the values. *)
Fixpoint labelled_from (i : nat) (values : list pyval) : list (string * pyval) :=
  match values with
  | [] => []
  | val :: rest => (place_label i, val) :: labelled_from (S i) rest
  end.

(** The warning of line 114 for a statistics record. *)
Definition not_found_warning (t : pyval) : event :=
  Log WARNING (MsgTrinketNotFound (stat_key t)).

(** [o] is the record lines 101 to 111 build for [t]. *)
Definition combined_from (cm : card_map) (t o : pyval) : Prop :=
  exists card_info,
    cm_lookup (stat_key t) cm = Some card_info /\
    combined_data card_info t (stat_key t) = Ok o.

(** The events of a download from the API, up to the upload. *)
Definition download_events (payload : pyval) : list event :=
  [ Log INFO MsgDownloadingCards; CardsGet;
    Log INFO MsgUploadingCards; CardsUpload (json_dumps payload) ].


(** What line 84 binds [trinket_stats] to. *)
Definition stats_value (env : Env) : pyval :=
  match stats_response env with
  | Some v => v
  | None => PNone
  end.

(** The events before the first load. *)
Definition greeting (env : Env) : list event :=
  ((if past_due env then [Log INFO MsgPastDue] else []) ++ [Log INFO MsgExecuted])%list.

(** The text lines 95 to 123 hand to the upload of the result blob for a
    card map and the statistics, if they get that far. *)
Definition output_of (cm : card_map) (trinket_stats : pyval) : list string :=
  match py_iter trinket_stats with
  | Ok stats =>
      match result (join cm stats [] {| card_blob := None; result_blob := None |}) with
      | Ok processed =>
          match sorted avg_placement processed with
          | Ok sorted_trinkets => [json_dumps_indent2 (PList sorted_trinkets)]
          | Raise _ => []
          end
      | Raise _ => []
      end
  | Raise _ => []
  end.

(** What a load returns, or raises. *)
Definition load_result (env : Env) (force_update : bool) (st : state)
  : res (option card_map * bool) :=
  let from_api :=
    match cards_response env with
    | None => Ok (None, false)
    | Some payload =>
        if cards_upload_error env then Raise StorageError
        else match build_card_map payload with
             | Ok cm => Ok (Some cm, true)
             | Raise e => Raise e
             end
    end in
  if force_update then from_api
  else if exists_error env then Raise StorageError
  else match card_blob st with
       | None => from_api
       | Some _ =>
           match cache_read env st with
           | Ok cm => Ok (Some cm, false)
           | Raise _ => from_api
           end
       end.

(** Two runs see the same upstream data: the same cache blob, read with
    the same luck, and the same answers from the two APIs. *)
Definition same_upstream (env1 : Env) (st1 : state) (env2 : Env) (st2 : state) : Prop :=
  card_blob st1 = card_blob st2 /\
  exists_error env1 = exists_error env2 /\
  download_error env1 = download_error env2 /\
  cards_response env1 = cards_response env2 /\
  stats_response env1 = stats_response env2.

(** The character [c] occurs in [s]. *)
Fixpoint occurs (c : ascii) (s : string) : bool :=
  match s with
  | EmptyString => false
  | String c' s' => Ascii.eqb c' c || occurs c s'
  end.

Definition keys_hashable (m : card_map) : Prop :=
  Forall (fun kv => hashable (fst kv) = true) m.

(** The last card of the list whose ["dbfId"] equals [k], or [found] when
    there is none. *)
Fixpoint last_card_with (k : pyval) (cards : list pyval) (found : option pyval)
  : option pyval :=
  match cards with
  | [] => found
  | card :: rest =>
      match card with
      | PDict d =>
          match assoc "dbfId" d with
          | Some k' => last_card_with k rest (if py_eq k' k then Some card else found)
          | None => last_card_with k rest found
          end
      | _ => last_card_with k rest found
      end
  end.

(** The outcome [o], preceded by the events [evs]. *)
Definition after {A} (evs : list event) (o : outcome A) : outcome A :=
  {| result := result o; final := final o; events := evs ++ events o |}.

(* ------------------------------------------------------------------ *)
(** *** Sample data *)

(** A plain rendering of a value, standing in for the [json] serialiser
    when the module is run on the examples below. *)
Fixpoint render (v : pyval) : string :=
  match v with
  | PNone => "null"
  | PBool b => if b then "true" else "false"
  | PInt z => (if z <? 0 then "-" else "") ++ dec (Z.abs z)
  | PFloat neg m e =>
      (if neg then "-" else "") ++ dec (Z.of_N m) ++ "p" ++
      (if e <? 0 then "-" else "") ++ dec (Z.abs e)
  | PStr s => "'" ++ s ++ "'"
  | PList l =>
      "[" ++ (fix items (l : list pyval) : string :=
                match l with
                | [] => ""
                | [x] => render x
                | x :: l' => render x ++ ", " ++ items l'
                end) l ++ "]"
  | PDict d =>
      "{" ++ (fix entries (d : list (string * pyval)) : string :=
                match d with
                | [] => ""
                | [(k, x)] => "'" ++ k ++ "': " ++ render x
                | (k, x) :: d' => "'" ++ k ++ "': " ++ render x ++ ", " ++ entries d'
                end) d ++ "}"
  end.

(** The card and the statistics of the end-to-end scenario. *)
Definition card_thing : pyval :=
  PDict [("dbfId", PInt 100); ("name", PStr "Thing"); ("text", PStr "A")].

Definition stat_thing : pyval :=
  PDict [ ("trinket_dbf_id", PInt 100);
          ("avg_final_placement", PFloat false 5179139571476070 (-51));  (* 2.3 *)
          ("pick_rate", PFloat false 10 0);
          ("tier", PStr "a");
          ("group", PInt 1);
          ("final_placement_distribution", PList [PInt 1; PInt 2]) ].

(** A second card, and statistics for it and for a trinket no catalogue
    knows. *)
Definition card_other : pyval :=
  PDict [("dbfId", PInt 200); ("name", PStr "Other");
         ("text", PStr "Hello\n<b>World</b>")].

Definition stat_other : pyval :=
  PDict [ ("trinket_dbf_id", PInt 200);
          ("avg_final_placement", PFloat false 3 (-1));                   (* 1.5 *)
          ("pick_rate", PFloat false 85 (-1));                            (* 42.5 *)
          ("tier", PStr "b");
          ("group", PInt 2);
          ("final_placement_distribution", PList [PInt 10; PInt 20; PInt 5]) ].

Definition stat_stranger : pyval :=
  PDict [ ("trinket_dbf_id", PInt 999);
          ("avg_final_placement", PInt 4) ].

(** A [json.loads] that knows two documents. *)
Definition sample_loads (text : string) : option pyval :=
  if String.eqb text "cards: thing" then Some (PList [card_thing])
  else if String.eqb text "cards: thing, other" then Some (PList [card_thing; card_other])
  else None.

Definition sample_env : Env := {|
  past_due := false;
  CONNECTION_STRING := Some "UseDevelopmentStorage=true";
  connect_error := false;
  exists_error := false;
  download_error := false;
  cards_response := Some (PList [card_thing; card_other]);
  cards_upload_error := false;
  stats_response := Some (PList [stat_thing; stat_stranger; stat_other]);
  result_upload_error := false
|}.

(** The same world on a late timer whose upload of the result fails, and
    one whose catalogue API answers with an empty array. *)
Definition late_env : Env := {|
  past_due := true;
  CONNECTION_STRING := Some "UseDevelopmentStorage=true";
  connect_error := false;
  exists_error := false;
  download_error := false;
  cards_response := Some (PList [card_thing; card_other]);
  cards_upload_error := false;
  stats_response := Some (PList [stat_thing; stat_stranger; stat_other]);
  result_upload_error := true
|}.

Definition empty_api_env : Env := {|
  past_due := false;
  CONNECTION_STRING := Some "UseDevelopmentStorage=true";
  connect_error := false;
  exists_error := false;
  download_error := false;
  cards_response := Some (PList []);
  cards_upload_error := false;
  stats_response := Some (PList [stat_thing]);
  result_upload_error := false
|}.

(** A world without connection string, one whose storage cannot be asked
    whether the cache blob exists, and one whose catalogue API is down. *)
Definition unconfigured_env : Env := {|
  past_due := false;
  CONNECTION_STRING := None;
  connect_error := false;
  exists_error := false;
  download_error := false;
  cards_response := Some (PList [card_thing; card_other]);
  cards_upload_error := false;
  stats_response := Some (PList [stat_thing; stat_stranger; stat_other]);
  result_upload_error := false
|}.


Definition api_down_env : Env := {|
  past_due := false;
  CONNECTION_STRING := Some "UseDevelopmentStorage=true";
  connect_error := false;
  exists_error := false;
  download_error := false;
  cards_response := None;
  cards_upload_error := false;
  stats_response := Some (PList [stat_thing; stat_stranger; stat_other]);
  result_upload_error := false
|}.

(** A later card with the ["dbfId"] of [card_thing]. *)
Definition card_reprint : pyval :=
  PDict [("dbfId", PInt 100); ("name", PStr "Thing, reprinted")].

(** A [json.loads] that reads back what [render] wrote for the sample
    catalogue. *)
Definition echo_loads (text : string) : option pyval :=
  if String.eqb text (render (PList [card_thing; card_other]))
  then Some (PList [card_thing; card_other])
  else None.

Definition sample_stats : list pyval := [stat_thing; stat_stranger; stat_other].

Definition stale_catalog : card_map := [(PInt 100, card_thing)].

Definition sample_catalog : card_map := [(PInt 100, card_thing); (PInt 200, card_other)].

(** The output records for the two known trinkets. *)
Definition combined_thing : pyval :=
  PDict [ ("name", PStr "Thing");
          ("avg_placement", PFloat false 5179139571476070 (-51));
          ("pick_rate", PStr "10.00%");
          ("tier", PStr "A");
          ("group", PInt 1);
          ("text", PStr "A");
          ("placement_dist", PDict [("1st", PInt 1); ("2st", PInt 2)]);
          ("dbf_id", PInt 100) ].

Definition combined_other : pyval :=
  PDict [ ("name", PStr "Other");
          ("avg_placement", PFloat false 3 (-1));
          ("pick_rate", PStr "42.50%");
          ("tier", PStr "B");
          ("group", PInt 2);
          ("text", PStr "Hello World");
          ("placement_dist", PDict [("1st", PInt 10); ("2st", PInt 20); ("3st", PInt 5)]);
          ("dbf_id", PInt 200) ].

Definition empty_container : state := {| card_blob := None; result_blob := None |}.

Definition stale_container : state :=
  {| card_blob := Some "cards: thing"; result_blob := None |}.


Definition used_container : state :=
  {| card_blob := Some "cards: thing"; result_blob := Some "[]" |}.


(* ================================================================== *)
(** ** Properties *)
(* ================================================================== *)

(* ------------------------------------------------------------------ *)
(** *** Decimal notation and the place labels *)

Lemma N_to_uint_nonnil (n : N) : N.to_uint n <> Decimal.Nil.
Proof.
  destruct n as [|p]; simpl.
  - discriminate.
  - apply DecimalPos.Unsigned.to_uint_nonnil.
Qed.

Lemma dec_inj (a b : Z) : 0 <= a -> 0 <= b -> dec a = dec b -> a = b.
Proof.
  unfold dec. intros Ha Hb H.
  assert (E : NilZero.uint_of_string (NilZero.string_of_uint (N.to_uint (Z.to_N a))) =
              NilZero.uint_of_string (NilZero.string_of_uint (N.to_uint (Z.to_N b))))
    by now rewrite H.
  rewrite !NilZero.usu in E by apply N_to_uint_nonnil.
  injection E as E. apply DecimalN.Unsigned.to_uint_inj in E. lia.
Qed.

Lemma length_append (s t : string) :
  String.length (s ++ t) = (String.length s + String.length t)%nat.
Proof. induction s as [|c s IH]; simpl; auto. Qed.

Lemma append_inj_l (s t u : string) : s ++ u = t ++ u -> s = t.
Proof.
  intros H.
  assert (L : String.length s = String.length t).
  { apply (f_equal String.length) in H. rewrite !length_append in H. lia. }
  revert t H L. induction s as [|c s IH]; intros [|d t] H L; simpl in *; try discriminate.
  - reflexivity.
  - injection H as -> H. f_equal. apply IH; auto.
Qed.

Lemma place_label_inj (i j : nat) : place_label i = place_label j -> i = j.
Proof.
  unfold place_label. intros H. apply append_inj_l in H.
  apply dec_inj in H; lia.
Qed.

Lemma dict_set_fresh (k : string) (v : pyval) (d : list (string * pyval)) :
  assoc k d = None -> dict_set k v d = (d ++ [(k, v)])%list.
Proof.
  unfold assoc. induction d as [|[k' v'] d IH]; simpl; intros H.
  - reflexivity.
  - destruct (String.eqb k' k); [discriminate|]. f_equal. auto.
Qed.

Lemma assoc_app_none {V} (k : string) (d d' : list (string * V)) :
  assoc k d = None -> assoc k d' = None -> assoc k (d ++ d')%list = None.
Proof.
  unfold assoc. induction d as [|[k' v'] d IH]; simpl; intros H H'.
  - exact H'.
  - destruct (String.eqb k' k); [discriminate|]. auto.
Qed.

(** A dict comprehension over [enumerate] never meets a key twice, so the
    dict lists the labelled values in the order of the sequence. *)
Lemma placement_dist_from_labelled (values : list pyval) :
  forall i acc,
    (forall j, (i <= j)%nat -> assoc (place_label j) acc = None) ->
    placement_dist_from i values acc = (acc ++ labelled_from i values)%list.
Proof.
  induction values as [|v values IH]; intros i acc Hacc; simpl.
  - now rewrite app_nil_r.
  - rewrite IH.
    + rewrite dict_set_fresh by (apply Hacc; lia).
      now rewrite <- app_assoc.
    + intros j Hj. rewrite dict_set_fresh by (apply Hacc; lia).
      apply assoc_app_none; [apply Hacc; lia|].
      unfold assoc. simpl.
      destruct (String.eqb_spec (place_label i) (place_label j)) as [E|_]; [|reflexivity].
      apply place_label_inj in E. lia.
Qed.

Lemma placement_dist_labelled (values : list pyval) :
  placement_dist values = labelled_from O values.
Proof.
  unfold placement_dist.
  rewrite placement_dist_from_labelled; [reflexivity | intros; reflexivity].
Qed.

Lemma nth_error_labelled_from (values : list pyval) :
  forall i n val,
    nth_error values n = Some val ->
    nth_error (labelled_from i values) n = Some (place_label (i + n), val).
Proof.
  induction values as [|v values IH]; intros i [|n] val H; simpl in *; try discriminate.
  - injection H as ->. now rewrite Nat.add_0_r.
  - rewrite (IH (S i) n val H). now replace (S i + n)%nat with (i + S n)%nat by lia.
Qed.

Lemma length_labelled_from (values : list pyval) (i : nat) :
  List.length (labelled_from i values) = List.length values.
Proof. revert i. induction values; intros; simpl; auto. Qed.

(* ------------------------------------------------------------------ *)
(** *** The record built for a matched pair *)

Ltac case_res H :=
  match type of H with
  | context [match ?r with Ok _ => _ | Raise _ => _ end] =>
      let E := fresh "E" in destruct r eqn:E; [|discriminate H]
  end.

(** What a successful [combined_data] has read and written. *)
Lemma combined_data_inv (card_info trinket dbf_id out : pyval) :
  combined_data card_info trinket dbf_id = Ok out ->
  exists dist values name avg rate rate_s tier group text,
    py_get trinket "final_placement_distribution" (PList []) = Ok dist /\
    py_iter dist = Ok values /\
    py_get card_info "name" PNone = Ok name /\
    py_get trinket "avg_final_placement" PNone = Ok avg /\
    py_get trinket "pick_rate" (PInt 0) = Ok rate /\
    format_2f rate = Ok rate_s /\
    py_get trinket "tier" (PStr "N/A") = Ok (PStr tier) /\
    py_get trinket "group" PNone = Ok group /\
    py_get card_info "text" (PStr "") = Ok (PStr text) /\
    out = PDict [ ("name", name);
                  ("avg_placement", avg);
                  ("pick_rate", PStr (rate_s ++ "%"));
                  ("tier", PStr (upper tier));
                  ("group", group);
                  ("text", PStr (clean_text text));
                  ("placement_dist", PDict (placement_dist values));
                  ("dbf_id", dbf_id) ].
Proof.
  unfold combined_data, res_bind. intros H.
  repeat case_res H.
  match goal with E : py_upper ?t = Ok _ |- _ => destruct t; try discriminate E; injection E as <- end.
  match goal with E : py_str ?t = Ok _ |- _ => destruct t; try discriminate E; injection E as <- end.
  injection H as <-.
  repeat eexists; eauto.
Qed.

(* ------------------------------------------------------------------ *)
(** *** Two decimal places *)










(** Removing the tags first would give another text: the order of the
    replacements is part of the behaviour. *)
Example clean_text_order :
  clean_text "\<b>n" = "\n" /\
  replace "\n" " " (replace "<b>" "" "\<b>n") = " ".
Proof. split; reflexivity. Qed.

(* ------------------------------------------------------------------ *)
(** *** Claims about the transformation of one record *)

(** C2 (as stated, refuted).  For the distribution [[10, 20, 5]] the
    transformation does not produce the mapping with the English ordinals
    ["1st"], ["2nd"], ["3rd"]. *)
Lemma placement_dist_10_20_5_not_english :
  placement_dist [PInt 10; PInt 20; PInt 5] <>
  [("1st", PInt 10); ("2nd", PInt 20); ("3rd", PInt 5)].
Proof. vm_compute. discriminate. Qed.

(** C2 (amended).  For the distribution [[10, 20, 5]] the transformation
    produces the mapping [{"1st": 10, "2st": 20, "3st": 5}]; this is the
    [placement_dist] entry of the record built for a statistics record with
    that distribution. *)
Theorem placement_dist_10_20_5 :
  placement_dist [PInt 10; PInt 20; PInt 5] =
    [("1st", PInt 10); ("2st", PInt 20); ("3st", PInt 5)] /\
  exists out,
    py_get stat_other "final_placement_distribution" (PList []) =
      Ok (PList [PInt 10; PInt 20; PInt 5]) /\
    combined_data card_other stat_other (PInt 200) = Ok out /\
    py_get out "placement_dist" PNone =
      Ok (PDict [("1st", PInt 10); ("2st", PInt 20); ("3st", PInt 5)]).
Proof.
  split; [reflexivity|].
  eexists. split; [reflexivity|]. split; reflexivity.
Qed.

(** C3.  In the record built for a statistics record, the [placement_dist]
    entry has one key per position of the final placement distribution, in
    order, and the key for position [i] is the decimal notation of [i+1]
    followed by the two letters ["st"] -- for every [i]; position 1 gets
    ["2st"]. *)
Theorem placement_dist_keys (card_info trinket dbf_id out : pyval) :
  combined_data card_info trinket dbf_id = Ok out ->
  exists dist values,
    py_get trinket "final_placement_distribution" (PList []) = Ok dist /\
    py_iter dist = Ok values /\
    py_get out "placement_dist" PNone = Ok (PDict (placement_dist values)) /\
    List.length (placement_dist values) = List.length values /\
    (forall i val,
        nth_error values i = Some val ->
        nth_error (placement_dist values) i = Some (dec (Z.of_nat i + 1) ++ "st", val)) /\
    dec (Z.of_nat 1 + 1) ++ "st" = "2st".
Proof.
  intros H. apply combined_data_inv in H.
  destruct H as (dist & values & name & avg & rate & rate_s & tier & group & text &
                 Hd & Hv & _ & _ & _ & _ & _ & _ & _ & ->).
  exists dist, values. repeat split; auto.
  - rewrite placement_dist_labelled. apply length_labelled_from.
  - intros i val Hi. rewrite placement_dist_labelled.
    apply (nth_error_labelled_from values O i val Hi).
Qed.



(* ------------------------------------------------------------------ *)
(** *** Running a computation *)

Lemma outcome_eta {A} (o : outcome A) :
  {| result := result o; final := final o; events := events o |} = o.
Proof. now destruct o. Qed.

Lemma bind_ret {A B} (a : A) (f : A -> M B) (st : state) :
  bind (ret a) f st = f a st.
Proof. unfold bind, ret. cbn. apply outcome_eta. Qed.

Lemma bind_lift_ok {A B} (a : A) (f : A -> M B) (st : state) :
  bind (lift (Ok a)) f st = f a st.
Proof. unfold bind, lift. cbn. apply outcome_eta. Qed.

Lemma bind_lift_raise {A B} (e : exn) (f : A -> M B) (st : state) :
  bind (lift (Raise e)) f st = {| result := Raise e; final := st; events := [] |}.
Proof. reflexivity. Qed.

Lemma bind_emit {B} (ev : event) (f : unit -> M B) (st : state) :
  bind (emit ev) f st = after [ev] (f tt st).
Proof. reflexivity. Qed.

Lemma bind_log {B} (lvl : level) (msg : message) (f : unit -> M B) (st : state) :
  bind (log lvl msg) f st = after [Log lvl msg] (f tt st).
Proof. reflexivity. Qed.

Lemma after_nil {A} (o : outcome A) : after [] o = o.
Proof. unfold after. cbn. apply outcome_eta. Qed.

Lemma after_after {A} (a b : list event) (o : outcome A) :
  after a (after b o) = after (a ++ b) o.
Proof. unfold after. cbn. now rewrite app_assoc. Qed.

Lemma bind_ok {A B} (m : M A) (f : A -> M B) (st st' : state) (a : A)
  (evs : list event) :
  m st = {| result := Ok a; final := st'; events := evs |} ->
  bind m f st = after evs (f a st').
Proof. intros H. unfold bind, after. rewrite H. reflexivity. Qed.

Lemma bind_raise {A B} (m : M A) (f : A -> M B) (st st' : state) (e : exn)
  (evs : list event) :
  m st = {| result := Raise e; final := st'; events := evs |} ->
  bind m f st = {| result := Raise e; final := st'; events := evs |}.
Proof. intros H. unfold bind. rewrite H. reflexivity. Qed.

Lemma try_except_ok {A} (body : M A) (catches : exn -> bool) (handler : exn -> M A)
  (st st' : state) (a : A) (evs : list event) :
  body st = {| result := Ok a; final := st'; events := evs |} ->
  try_except body catches handler st = {| result := Ok a; final := st'; events := evs |}.
Proof. intros H. unfold try_except. rewrite H. reflexivity. Qed.

Lemma try_except_caught {A} (body : M A) (catches : exn -> bool) (handler : exn -> M A)
  (st st' : state) (e : exn) (evs : list event) :
  body st = {| result := Raise e; final := st'; events := evs |} ->
  catches e = true ->
  try_except body catches handler st = after evs (handler e st').
Proof. intros H C. unfold try_except, after. rewrite H. cbn. rewrite C. reflexivity. Qed.

Lemma try_except_uncaught {A} (body : M A) (catches : exn -> bool) (handler : exn -> M A)
  (st st' : state) (e : exn) (evs : list event) :
  body st = {| result := Raise e; final := st'; events := evs |} ->
  catches e = false ->
  try_except body catches handler st = {| result := Raise e; final := st'; events := evs |}.
Proof. intros H C. unfold try_except. rewrite H. cbn. rewrite C. reflexivity. Qed.

Lemma after_outcome {A} (pre : list event) (r : res A) (st : state) (evs : list event) :
  after pre {| result := r; final := st; events := evs |} =
  {| result := r; final := st; events := (pre ++ evs)%list |}.
Proof. reflexivity. Qed.

Lemma requests_get_json_some (ev : event) (payload : pyval) (st : state) :
  requests_get_json ev (Some payload) st =
  {| result := Ok payload; final := st; events := [ev] |}.
Proof. reflexivity. Qed.

Lemma requests_get_json_none (ev : event) (st : state) :
  requests_get_json ev None st =
  {| result := Raise RequestException; final := st; events := [ev] |}.
Proof. reflexivity. Qed.

Lemma upload_card_blob_ok (env : Env) (data : string) (st : state) :
  cards_upload_error env = false ->
  upload_card_blob env data st =
  {| result := Ok tt;
     final := {| card_blob := Some data; result_blob := result_blob st |};
     events := [CardsUpload data] |}.
Proof. intros U. unfold upload_card_blob. rewrite U. reflexivity. Qed.

Lemma upload_card_blob_error (env : Env) (data : string) (st : state) :
  cards_upload_error env = true ->
  upload_card_blob env data st =
  {| result := Raise StorageError; final := st; events := [CardsUpload data] |}.
Proof. intros U. unfold upload_card_blob. rewrite U. reflexivity. Qed.

Lemma blob_exists_ok (env : Env) (st : state) :
  exists_error env = false ->
  blob_exists env st =
  {| result := Ok (match card_blob st with Some _ => true | None => false end);
     final := st;
     events := [BlobExists] |}.
Proof. intros X. unfold blob_exists. rewrite X. reflexivity. Qed.

Lemma blob_exists_error (env : Env) (st : state) :
  exists_error env = true ->
  blob_exists env st =
  {| result := Raise StorageError; final := st; events := [BlobExists] |}.
Proof. intros X. unfold blob_exists. rewrite X. reflexivity. Qed.

Lemma download_blob_eq (env : Env) (st : state) :
  download_blob env st =
  {| result := if download_error env then Raise StorageError
               else match card_blob st with
                    | Some text => Ok text
                    | None => Raise StorageError
                    end;
     final := st;
     events := [BlobDownload] |}.
Proof.
  unfold download_blob, bind, emit, get_card_blob, lift, ret. cbn.
  destruct (download_error env); [reflexivity|].
  cbn. destruct (card_blob st); reflexivity.
Qed.

(* ------------------------------------------------------------------ *)
(** *** The card catalogue loader *)

Lemma card_map_from_raises (cards : list pyval) :
  forall acc e, card_map_from cards acc = Raise e -> e = TypeError.
Proof.
  induction cards as [|card rest IH]; intros acc e; simpl.
  - discriminate.
  - unfold res_bind.
    destruct card as [| | | | s | l | d]; simpl; try (now intros [= <-]).
    + destruct (contains "dbfId" s); [now intros [= <-] | apply IH].
    + destruct (existsb _ l); [now intros [= <-] | apply IH].
    + destruct (assoc "dbfId" d) as [k|]; [|apply IH].
      destruct (hashable k); [apply IH | now intros [= <-]].
Qed.

Lemma build_card_map_raises (payload : pyval) (e : exn) :
  build_card_map payload = Raise e -> e = TypeError.
Proof.
  unfold build_card_map, res_bind.
  destruct (py_iter payload) as [cards|e'] eqn:E.
  - apply card_map_from_raises.
  - intros [= <-]. destruct payload; simpl in E; congruence.
Qed.

(** Lines 35 to 48, which is all a forced load runs. *)
Lemma load_forced (env : Env) (st : state) :
  get_card_data_and_map env true st =
  match cards_response env with
  | None =>
      {| result := Ok (None, false);
         final := st;
         events := [Log INFO MsgDownloadingCards; CardsGet; Log ERROR MsgCardsApiFailed] |}
  | Some payload =>
      if cards_upload_error env
      then {| result := Raise StorageError;
              final := st;
              events := download_events payload |}
      else {| result := match build_card_map payload with
                        | Ok cm => Ok (Some cm, true)
                        | Raise e => Raise e
                        end;
              final := {| card_blob := Some (json_dumps payload);
                          result_blob := result_blob st |};
              events := download_events payload |}
  end.
Proof.
  unfold get_card_data_and_map. cbn [negb].
  rewrite bind_ret. cbv beta iota. rewrite bind_ret. cbv beta iota.
  rewrite bind_log.
  destruct (cards_response env) as [payload|] eqn:R.
  - destruct (cards_upload_error env) eqn:U.
    + erewrite try_except_uncaught; [reflexivity| |reflexivity].
      rewrite bind_ok with (1 := requests_get_json_some _ _ _).
      rewrite bind_log.
      rewrite bind_raise with (1 := upload_card_blob_error _ _ _ U).
      reflexivity.
    + destruct (build_card_map payload) as [cm|e] eqn:B.
      * erewrite try_except_ok; [reflexivity|].
        rewrite bind_ok with (1 := requests_get_json_some _ _ _).
        rewrite bind_log.
        rewrite bind_ok with (1 := upload_card_blob_ok _ _ _ U).
        rewrite B, bind_lift_ok. reflexivity.
      * pose proof (build_card_map_raises _ _ B) as ->.
        erewrite try_except_uncaught; [reflexivity| |reflexivity].
        rewrite bind_ok with (1 := requests_get_json_some _ _ _).
        rewrite bind_log.
        rewrite bind_ok with (1 := upload_card_blob_ok _ _ _ U).
        rewrite B, bind_lift_raise. reflexivity.
  - erewrite try_except_caught; [|apply bind_raise, requests_get_json_none|reflexivity].
    reflexivity.
Qed.

(** Lines 25 to 33 and what follows them.  When the blob is missing or
    cannot be used, the load goes on as a forced load does. *)
Lemma load_unforced (env : Env) (st : state) :
  get_card_data_and_map env false st =
  if exists_error env
  then {| result := Raise StorageError; final := st; events := [BlobExists] |}
  else match card_blob st with
       | None => after [BlobExists] (get_card_data_and_map env true st)
       | Some _ =>
           match cache_read env st with
           | Ok cm =>
               {| result := Ok (Some cm, false);
                  final := st;
                  events := [BlobExists; Log INFO MsgLoadingFromBlob; BlobDownload] |}
           | Raise e =>
               after [BlobExists; Log INFO MsgLoadingFromBlob; BlobDownload;
                      Log WARNING (MsgBlobReadFailed e)]
                     (get_card_data_and_map env true st)
           end
       end.
Proof.
  destruct (exists_error env) eqn:X.
  - unfold get_card_data_and_map. cbn [negb].
    now rewrite bind_raise with (1 := blob_exists_error _ _ X).
  - assert (F : get_card_data_and_map env true st =
               bind (log INFO MsgDownloadingCards)
                 (fun _ =>
                    try_except
                      (bind (requests_get_json CardsGet (cards_response env))
                         (fun card_data =>
                            bind (log INFO MsgUploadingCards)
                              (fun _ =>
                                 bind (upload_card_blob env (json_dumps card_data))
                                   (fun _ =>
                                      bind (lift (build_card_map card_data))
                                        (fun cm => ret (Some cm, true))))))
                      is_request_exception
                      (fun _ =>
                         bind (log ERROR MsgCardsApiFailed)
                           (fun _ => ret (None, false)))) st).
    { unfold get_card_data_and_map. cbn [negb].
      rewrite bind_ret. cbv beta iota. rewrite bind_ret. reflexivity. }
    rewrite F. clear F.
    unfold get_card_data_and_map. cbn [negb].
    rewrite bind_ok with (1 := blob_exists_ok _ _ X).
    unfold cache_read.
    destruct (card_blob st) as [text|] eqn:C; cbv beta iota.
    + assert (T : try_except
                    (bind (download_blob env)
                       (fun text0 =>
                          bind (lift (loads text0))
                            (fun card_data =>
                               bind (lift (build_card_map card_data))
                                 (fun cm => ret (Some cm)))))
                    any_exception
                    (fun e => bind (log WARNING (MsgBlobReadFailed e)) (fun _ => ret None)) st =
                  match (if download_error env then Raise StorageError
                         else (card_data <- loads text ;; build_card_map card_data)%res) with
                  | Ok cm => {| result := Ok (Some cm); final := st; events := [BlobDownload] |}
                  | Raise e =>
                      {| result := Ok None; final := st;
                         events := [BlobDownload; Log WARNING (MsgBlobReadFailed e)] |}
                  end).
      { destruct (download_error env) eqn:D.
        - erewrite try_except_caught;
            [|apply bind_raise; now rewrite download_blob_eq, D|reflexivity].
          reflexivity.
        - destruct (loads text) as [card_data|e] eqn:L; cbn [res_bind].
          + destruct (build_card_map card_data) as [cm|e] eqn:B.
            * erewrite try_except_ok; [reflexivity|].
              erewrite bind_ok; [|now rewrite download_blob_eq, D, C].
              now rewrite L, bind_lift_ok, B, bind_lift_ok.
            * erewrite try_except_caught; [| |reflexivity].
              2: { erewrite bind_ok; [|now rewrite download_blob_eq, D, C].
                   now rewrite L, bind_lift_ok, B, bind_lift_raise. }
              reflexivity.
          + erewrite try_except_caught; [| |reflexivity].
            2: { erewrite bind_ok; [|now rewrite download_blob_eq, D, C].
                 now rewrite L, bind_lift_raise. }
            reflexivity. }
      destruct (if download_error env then Raise StorageError
                else (card_data <- loads text ;; build_card_map card_data)%res)
        as [cm|e].
      * erewrite bind_ok with (a := Some cm);
          [|rewrite bind_log, T; reflexivity].
        reflexivity.
      * erewrite bind_ok with (a := None);
          [|rewrite bind_log, T; reflexivity].
        cbv beta iota. now rewrite !after_after.
    + rewrite bind_ret. reflexivity.
Qed.




(** An upload of the card blob that fails ends the load, and the run, with
    the storage exception. *)
Lemma load_upload_failure (env : Env) (st : state) (payload : pyval) :
  cards_response env = Some payload ->
  cards_upload_error env = true ->
  result (get_card_data_and_map env true st) = Raise StorageError.
Proof. intros R U. rewrite load_forced, R, U. reflexivity. Qed.


Lemma cards_gets_app (a b : list event) :
  cards_gets (a ++ b) = (cards_gets a + cards_gets b)%nat.
Proof. unfold cards_gets. now rewrite filter_app, length_app. Qed.

(** A forced load asks the API exactly once, whatever happens. *)
Lemma load_forced_cards_gets (env : Env) (st : state) :
  cards_gets (events (get_card_data_and_map env true st)) = 1%nat.
Proof.
  rewrite load_forced.
  destruct (cards_response env); [destruct (cards_upload_error env)|]; reflexivity.
Qed.



(* ------------------------------------------------------------------ *)
(** *** The forced update *)

Lemma is_stat_record_key (t : pyval) :
  is_stat_record t = true ->
  py_get t "trinket_dbf_id" PNone = Ok (stat_key t) /\ hashable (stat_key t) = true.
Proof.
  destruct t as [| | | | | |d]; try discriminate. simpl.
  destruct (assoc "trinket_dbf_id" d) as [k|]; simpl.
  - intros H. repeat (apply andb_true_iff in H; destruct H as [H ?]). auto.
  - auto.
Qed.

(** On statistics records the check of line 88 says whether some record's
    join key is not in the card map. *)
Lemma any_missing_records (cm : card_map) (stats : list pyval) :
  Forall (fun t => is_stat_record t = true) stats ->
  any_missing cm stats = Ok (existsb (unknown cm) stats).
Proof.
  induction 1 as [|t rest Ht _ IH]; simpl.
  - reflexivity.
  - destruct (is_stat_record_key t Ht) as [K Hh].
    rewrite K. unfold res_bind, cm_mem, unknown, known at 1. simpl. rewrite Hh.
    destruct (cm_lookup (stat_key t) cm); simpl; auto.
Qed.

(** Lines 88 to 93 in one equation. *)
Lemma refresh_if_missing_eq (env : Env) (cm : card_map) (was_updated : bool)
  (trinket_stats : pyval) (st : state) :
  refresh_if_missing env cm was_updated trinket_stats st =
  match (stats <- py_iter trinket_stats ;; any_missing cm stats)%res with
  | Raise e => {| result := Raise e; final := st; events := [] |}
  | Ok missing =>
      if missing && negb was_updated
      then
        let o := get_card_data_and_map env true st in
        {| result :=
             match result o with
             | Ok (card_map', _) =>
                 if cm_truthy card_map' then Ok (inr (the_dict card_map'))
                 else Ok (inl {| body := CardUpdateFailed; status_code := 500 |})
             | Raise e => Raise e
             end;
           final := final o;
           events := Log INFO MsgForcingUpdate :: events o |}
      else {| result := Ok (inr cm); final := st; events := [] |}
  end.
Proof.
  unfold refresh_if_missing, res_bind.
  destruct (py_iter trinket_stats) as [stats|e]; [|apply bind_lift_raise].
  rewrite bind_lift_ok.
  destruct (any_missing cm stats) as [missing|e]; [|apply bind_lift_raise].
  rewrite bind_lift_ok.
  destruct (missing && negb was_updated); [|reflexivity].
  rewrite bind_log. unfold after, bind, ret. cbn [result final events].
  destruct (get_card_data_and_map env true st) as [[[m u]|e] f evs]; cbn; [|reflexivity].
  destruct (cm_truthy m); cbn; now rewrite app_nil_r.
Qed.

Lemma forced_updates_load (env : Env) (force_update : bool) (st : state) :
  forced_updates (events (get_card_data_and_map env force_update st)) = 0%nat.
Proof.
  assert (F : forced_updates (events (get_card_data_and_map env true st)) = 0%nat).
  { rewrite load_forced.
    destruct (cards_response env); [destruct (cards_upload_error env)|]; reflexivity. }
  destruct force_update; [exact F|].
  rewrite load_unforced.
  destruct (exists_error env); [reflexivity|].
  destruct (card_blob st); [destruct (cache_read env st)|]; try reflexivity;
    unfold after; cbn [events]; unfold forced_updates in *;
    rewrite filter_app, length_app, F; reflexivity.
Qed.

(** C1.  In the step between the fetches and the join, with statistics
    records as input: the forced update is entered exactly when some
    record's join key is not in the card map and the card map did not come
    from the API in this run; it is entered at most once and asks the card
    catalogue API exactly once; otherwise -- in particular whenever the card
    map came from the API -- the step asks nothing, does nothing and hands
    on the card map it was given. *)
Theorem forced_update_condition (env : Env) (cm : card_map) (was_updated : bool)
  (stats : list pyval) (st : state) :
  Forall (fun t => is_stat_record t = true) stats ->
  (forced_updates (events (refresh_if_missing env cm was_updated (PList stats) st)) = 1%nat
   <-> (exists t, In t stats /\ cm_lookup (stat_key t) cm = None) /\ was_updated = false) /\
  (forced_updates (events (refresh_if_missing env cm was_updated (PList stats) st)) <= 1)%nat /\
  cards_gets (events (refresh_if_missing env cm was_updated (PList stats) st)) =
    forced_updates (events (refresh_if_missing env cm was_updated (PList stats) st)) /\
  (forced_updates (events (refresh_if_missing env cm was_updated (PList stats) st)) = 1%nat ->
     events (refresh_if_missing env cm was_updated (PList stats) st) =
       Log INFO MsgForcingUpdate :: events (get_card_data_and_map env true st)) /\
  (was_updated = true ->
     refresh_if_missing env cm was_updated (PList stats) st =
       {| result := Ok (inr cm); final := st; events := [] |}).
Proof.
  intros V.
  rewrite refresh_if_missing_eq. cbn [py_iter res_bind].
  rewrite (any_missing_records cm stats V).
  assert (M : existsb (unknown cm) stats = true <->
              exists t, In t stats /\ cm_lookup (stat_key t) cm = None).
  { rewrite existsb_exists. unfold unknown, known.
    split; intros (t & I & H); exists t; split; auto;
      destruct (cm_lookup (stat_key t) cm); try reflexivity; discriminate. }
  assert (F : forced_updates
                (Log INFO MsgForcingUpdate :: events (get_card_data_and_map env true st)) = 1%nat).
  { change (forced_updates (Log INFO MsgForcingUpdate :: ?l)) with (S (forced_updates l)).
    now rewrite forced_updates_load. }
  assert (G : cards_gets
                (Log INFO MsgForcingUpdate :: events (get_card_data_and_map env true st)) = 1%nat).
  { change (cards_gets (Log INFO MsgForcingUpdate :: ?l)) with (cards_gets l).
    apply load_forced_cards_gets. }
  destruct (existsb (unknown cm) stats) eqn:E; destruct was_updated;
    cbn [andb negb result final events]; try rewrite F; try rewrite G;
    (split; [|split; [|split; [|split]]]);
    try reflexivity; try (intros ?; discriminate); try lia;
    try (unfold forced_updates; simpl; lia).
  all: split;
    [ intros H; first [ discriminate H | split; [now apply M | reflexivity] ]
    | intros [H1 H2];
      first [ reflexivity | discriminate H2 | apply M in H1; discriminate H1 ] ].
Qed.


(* ------------------------------------------------------------------ *)
(** *** The join *)

Lemma float_of_int_exact (z : Z) :
  Z.abs z < 2 ^ 53 -> float_of_int z = Ok (z <? 0, Z.to_N (Z.abs z), 0).
Proof.
  intros H. unfold float_of_int.
  assert (L : Z.log2 (Z.abs z) < 53).
  { destruct (Z.eq_dec (Z.abs z) 0) as [->|N]; [reflexivity|].
    apply Z.log2_lt_pow2; lia. }
  destruct (Z.leb_spec (Z.log2 (Z.abs z) + 1 - 53) 0); [reflexivity | lia].
Qed.

Lemma format_2f_rate (r : pyval) :
  is_rate r = true -> exists s, format_2f r = Ok s.
Proof.
  destruct r; simpl; try discriminate; intros H; eauto.
  apply Z.ltb_lt in H. rewrite float_of_int_exact by exact H. eauto.
Qed.

Lemma py_get_dict (d : list (string * pyval)) (key : string) (default : pyval) :
  py_get (PDict d) key default =
  Ok (match assoc key d with Some x => x | None => default end).
Proof. unfold py_get. now destruct (assoc key d). Qed.

(** On a statistics record and a card record the construction of lines 101
    to 111 goes through. *)
Lemma combined_data_total (card_info t dbf_id : pyval) :
  is_card_record card_info = true ->
  is_stat_record t = true ->
  exists o avg,
    combined_data card_info t dbf_id = Ok o /\
    avg_placement o = Ok avg /\ is_number avg = true.
Proof.
  destruct card_info as [| | | | | |c]; try discriminate.
  destruct t as [| | | | | |d]; try discriminate.
  unfold is_card_record, is_stat_record, absent_or.
  intros Hc Ht.
  repeat (apply andb_true_iff in Ht; destruct Ht as [Ht ?]).
  apply andb_true_iff in Hc. destruct Hc as [_ Hx].
  destruct (assoc "avg_final_placement" d) as [avg|] eqn:A; [|discriminate].
  assert (D : exists values,
             py_iter match assoc "final_placement_distribution" d with
                     | Some x => x
                     | None => PList []
                     end = Ok values).
  { destruct (assoc "final_placement_distribution" d) as [[]|]; try discriminate; simpl; eauto. }
  destruct D as [values D].
  assert (R : exists s,
             format_2f match assoc "pick_rate" d with
                       | Some x => x
                       | None => PInt 0
                       end = Ok s).
  { destruct (assoc "pick_rate" d) as [r|]; [now apply format_2f_rate | now eexists]. }
  destruct R as [rate_s R].
  assert (T : exists s,
             py_upper match assoc "tier" d with
                      | Some x => x
                      | None => PStr "N/A"
                      end = Ok s).
  { destruct (assoc "tier" d) as [[]|]; try discriminate; simpl; eauto. }
  destruct T as [tier_s T].
  assert (X : exists s,
             py_str match assoc "text" c with
                    | Some x => x
                    | None => PStr ""
                    end = Ok s).
  { destruct (assoc "text" c) as [[]|]; try discriminate; simpl; eauto. }
  destruct X as [text_s X].
  unfold combined_data. rewrite !py_get_dict. cbn [res_bind].
  rewrite D. cbn [res_bind]. rewrite R. cbn [res_bind].
  rewrite T. cbn [res_bind]. rewrite X. cbn [res_bind]. rewrite A.
  eexists. exists avg. split; [reflexivity|]. split; [reflexivity|assumption].
Qed.

Lemma cm_lookup_entry (k : pyval) (cm : card_map) (v : pyval) :
  cm_lookup k cm = Some v -> catalog_ok cm = true ->
  is_card_record v = true /\ truthy v = true.
Proof.
  unfold catalog_ok.
  induction cm as [|[k' v'] cm IH]; simpl; [discriminate|].
  intros L H. apply andb_true_iff in H. destruct H as [He Hr].
  destruct (py_eq k' k).
  - injection L as <-. unfold catalog_entry_ok in He. simpl in He.
    apply andb_true_iff in He. destruct He as [Hc Hk]. split; [exact Hc|].
    destruct v' as [| | | | | |d]; try discriminate.
    destruct d; [discriminate | reflexivity].
  - auto.
Qed.

(** Lines 96 to 114 on statistics records: the records whose key the card
    map knows are turned into output records, in order; each of the others
    causes one warning and nothing else. *)
Lemma join_records (cm : card_map) (stats : list pyval) :
  catalog_ok cm = true ->
  Forall (fun t => is_stat_record t = true) stats ->
  forall processed st,
  exists outs,
    Forall2 (combined_from cm) (filter (known cm) stats) outs /\
    Forall has_placement outs /\
    join cm stats processed st =
      {| result := Ok (processed ++ outs)%list;
         final := st;
         events := map not_found_warning (filter (unknown cm) stats) |}.
Proof.
  intros Hcm. induction 1 as [|t rest Ht _ IH]; intros processed st.
  - exists []. simpl. rewrite app_nil_r. repeat split; constructor.
  - destruct (is_stat_record_key t Ht) as [K Hh].
    cbn [join]. rewrite K, bind_lift_ok.
    unfold cm_get. rewrite Hh, bind_lift_ok.
    destruct (cm_lookup (stat_key t) cm) as [card_info|] eqn:L.
    + assert (Kn : known cm t = true) by (unfold known; now rewrite L).
      cbn [filter]. unfold unknown at 1. rewrite Kn. cbn [negb].
      destruct (cm_lookup_entry _ _ _ L Hcm) as [Hc Htr]. rewrite Htr.
      destruct (combined_data_total card_info t (stat_key t) Hc Ht) as (o & avg & C & A & N).
      rewrite C, bind_lift_ok.
      destruct (IH (processed ++ [o])%list st) as (outs & F2 & FA & J).
      exists (o :: outs). split; [|split].
      * constructor; [|exact F2]. exists card_info. auto.
      * constructor; [exists avg; auto | exact FA].
      * rewrite J. now rewrite <- app_assoc.
    + assert (Kn : known cm t = false) by (unfold known; now rewrite L).
      cbn [filter]. unfold unknown at 1. rewrite Kn. cbn [truthy negb map].
      rewrite bind_log.
      destruct (IH processed st) as (outs & F2 & FA & J).
      exists outs. split; [exact F2|]. split; [exact FA|].
      rewrite J. reflexivity.
Qed.


(* ------------------------------------------------------------------ *)
(** *** Sorting *)

Lemma py_lt_numbers (a b : pyval) :
  is_number a = true -> is_number b = true ->
  exists p q, num_val a = Some p /\ num_val b = Some q /\ py_lt a b = Ok (Qltb p q).
Proof.
  destruct a; try discriminate; destruct b; try discriminate; intros _ _;
    do 2 eexists; repeat split.
Qed.

Lemma Qltb_true (p q : Q) : Qltb p q = true -> (p <= q)%Q.
Proof.
  unfold Qltb. destruct (Qcompare p q) eqn:E; try discriminate.
  intros _. apply Qlt_le_weak. now apply Qlt_alt.
Qed.

Lemma Qltb_false (p q : Q) : Qltb p q = false -> (q <= p)%Q.
Proof.
  unfold Qltb. destruct (Qcompare p q) eqn:E; try discriminate; intros _.
  - apply Qeq_alt in E. rewrite E. apply Qle_refl.
  - apply Qlt_le_weak. now apply Qgt_alt.
Qed.

Lemma keyed_le_trans (a b c : pyval * pyval) :
  keyed_le a b -> keyed_le b c -> keyed_le a c.
Proof.
  unfold keyed_le, placement_le.
  destruct (placement_value (snd a)); [|tauto].
  destruct (placement_value (snd b)); [|tauto].
  destruct (placement_value (snd c)); [|tauto].
  apply Qle_trans.
Qed.

Lemma keyed_compare (kx ky : pyval * pyval) :
  keyed_ok kx -> keyed_ok ky ->
  exists lt, py_lt (fst kx) (fst ky) = Ok lt /\
             (lt = true -> keyed_le kx ky) /\ (lt = false -> keyed_le ky kx).
Proof.
  intros [Nx Ax] [Ny Ay].
  destruct (py_lt_numbers _ _ Nx Ny) as (p & q & Vp & Vq & L).
  exists (Qltb p q). split; [exact L|].
  unfold keyed_le, placement_le, placement_value. rewrite Ax, Ay, Vp, Vq.
  split; [apply Qltb_true | apply Qltb_false].
Qed.

Lemma insert_keyed_sorted (kx : pyval * pyval) (l : list (pyval * pyval)) :
  keyed_ok kx -> Forall keyed_ok l -> StronglySorted keyed_le l ->
  exists l',
    insert_keyed kx l = Ok l' /\
    Permutation (kx :: l) l' /\ Forall keyed_ok l' /\ StronglySorted keyed_le l'.
Proof.
  intros Hx. induction l as [|ky l IH]; intros Hl Hs.
  - exists [kx]. repeat split; auto; repeat constructor; auto.
  - inversion Hl as [|? ? Hy Hl']; subst. inversion Hs as [|? ? Hs' Hall]; subst.
    destruct (keyed_compare kx ky Hx Hy) as (lt & L & Ht & Hf).
    cbn [insert_keyed]. rewrite L. cbn [res_bind].
    destruct lt.
    + exists (kx :: ky :: l). repeat split; auto.
      constructor; [exact Hs|]. constructor; [now apply Ht|].
      eapply Forall_impl; [|exact Hall].
      intros z Hz. eapply keyed_le_trans; [now apply Ht | exact Hz].
    + destruct (IH Hl' Hs') as (l' & I & P & F & S).
      rewrite I. cbn [res_bind].
      exists (ky :: l'). repeat split.
      * rewrite perm_swap. now constructor.
      * constructor; auto.
      * constructor; [exact S|].
        eapply Permutation_Forall; [exact P|].
        constructor; [now apply Hf | exact Hall].
Qed.

Lemma sort_keyed_sorted (l : list (pyval * pyval)) :
  Forall keyed_ok l ->
  forall acc, Forall keyed_ok acc -> StronglySorted keyed_le acc ->
  exists s,
    sort_keyed l acc = Ok s /\
    Permutation (l ++ acc) s /\ Forall keyed_ok s /\ StronglySorted keyed_le s.
Proof.
  induction 1 as [|kx l Hx Hl IH]; intros acc Ha Hs.
  - exists acc. repeat split; auto.
  - destruct (insert_keyed_sorted kx acc Hx Ha Hs) as (acc' & I & P & F & S).
    cbn [sort_keyed]. rewrite I. cbn [res_bind].
    destruct (IH acc' F S) as (s & E & P' & F' & S').
    exists s. repeat split; auto.
    rewrite <- P'. cbn [app]. rewrite <- P. apply Permutation_middle.
Qed.

Lemma with_keys_placement (l : list pyval) :
  Forall has_placement l ->
  exists keyed,
    with_keys avg_placement l = Ok keyed /\ map snd keyed = l /\ Forall keyed_ok keyed.
Proof.
  induction 1 as [|x l (avg & A & N) _ (keyed & W & M & F)].
  - exists []. repeat split; constructor.
  - exists ((avg, x) :: keyed). cbn [with_keys]. rewrite A. cbn [res_bind].
    rewrite W. cbn [res_bind]. repeat split.
    + cbn. now rewrite M.
    + constructor; [split; assumption | exact F].
Qed.

Lemma StronglySorted_map_snd (s : list (pyval * pyval)) :
  StronglySorted keyed_le s -> StronglySorted placement_le (map snd s).
Proof.
  induction 1 as [|kx s _ IH Hall]; cbn; constructor; auto.
  apply Forall_map. exact Hall.
Qed.

(** [sorted] on records that carry a number: the result is a rearrangement
    of the input in which the numbers never decrease. *)
Lemma sorted_by_placement (l : list pyval) :
  Forall has_placement l ->
  exists l',
    sorted avg_placement l = Ok l' /\
    Permutation l l' /\ StronglySorted placement_le l'.
Proof.
  intros H. destruct (with_keys_placement l H) as (keyed & W & M & F).
  destruct (sort_keyed_sorted keyed F [] (Forall_nil _) (SSorted_nil _))
    as (s & E & P & _ & S).
  exists (map snd s). unfold sorted. rewrite W. cbn [res_bind]. rewrite E. cbn [res_bind].
  repeat split.
  - rewrite <- M. apply Permutation_map. now rewrite app_nil_r in P.
  - now apply StronglySorted_map_snd.
Qed.


(* ------------------------------------------------------------------ *)
(** *** Join, sort, publish *)

(** The upload of lines 118 to 127.  A failing upload is logged, not
    raised. *)
Lemma publish_eq (env : Env) (data : string) (st : state) :
  try_except
    (bind (upload_result_blob env data) (fun _ => log INFO MsgSaved))
    any_exception
    (fun e => log ERROR (MsgSaveFailed e)) st =
  if result_upload_error env
  then {| result := Ok tt;
          final := st;
          events := [ResultUpload data; Log ERROR (MsgSaveFailed StorageError)] |}
  else {| result := Ok tt;
          final := {| card_blob := card_blob st; result_blob := Some data |};
          events := [ResultUpload data; Log INFO MsgSaved] |}.
Proof.
  unfold try_except, bind, upload_result_blob, put_result_blob, log, emit, lift.
  cbn. destruct (result_upload_error env); reflexivity.
Qed.

(** Lines 95 to 127 on statistics records, in one equation. *)
Lemma process_and_save_records (env : Env) (cm : card_map) (stats : list pyval)
  (st : state) :
  catalog_ok cm = true ->
  Forall (fun t => is_stat_record t = true) stats ->
  exists processed sorted_trinkets,
    Forall2 (combined_from cm) (filter (known cm) stats) processed /\
    Permutation processed sorted_trinkets /\
    StronglySorted placement_le sorted_trinkets /\
    process_and_save env cm (PList stats) st =
      after (map not_found_warning (filter (unknown cm) stats))
        (if result_upload_error env
         then {| result := Ok tt;
                 final := st;
                 events := [ResultUpload (json_dumps_indent2 (PList sorted_trinkets));
                            Log ERROR (MsgSaveFailed StorageError)] |}
         else {| result := Ok tt;
                 final := {| card_blob := card_blob st;
                             result_blob :=
                               Some (json_dumps_indent2 (PList sorted_trinkets)) |};
                 events := [ResultUpload (json_dumps_indent2 (PList sorted_trinkets));
                            Log INFO MsgSaved] |}).
Proof.
  intros Hcm Hs.
  destruct (join_records cm stats Hcm Hs [] st) as (processed & F2 & FP & J).
  destruct (sorted_by_placement processed FP) as (sorted_trinkets & E & P & S).
  exists processed, sorted_trinkets. repeat split; auto.
  unfold process_and_save. cbn [py_iter]. rewrite bind_lift_ok.
  rewrite (bind_ok _ _ _ _ _ _ J). cbn [app].
  rewrite E, bind_lift_ok, publish_eq. reflexivity.
Qed.

Lemma published_app (a b : list event) :
  published (a ++ b) = (published a ++ published b)%list.
Proof.
  induction a as [|ev a IH]; [reflexivity|].
  destruct ev; cbn; rewrite IH; reflexivity.
Qed.

Lemma published_warnings (l : list pyval) :
  published (map not_found_warning l) = [].
Proof. induction l; cbn; auto. Qed.

(** C6.  With a card map and statistics records at hand, a record whose
    join key the card map does not know is skipped with a warning and
    nothing else: the step still ends normally, the records whose key is
    known are all turned into output records, sorted and handed to the
    upload of the result blob, and no output record stems from a skipped
    one. *)
Theorem unknown_trinkets_are_skipped (env : Env) (cm : card_map)
  (stats : list pyval) (st : state) :
  catalog_ok cm = true ->
  Forall (fun t => is_stat_record t = true) stats ->
  result (process_and_save env cm (PList stats) st) = Ok tt /\
  (forall t, In t stats -> unknown cm t = true ->
     In (Log WARNING (MsgTrinketNotFound (stat_key t)))
        (events (process_and_save env cm (PList stats) st)) /\
     forall o, ~ combined_from cm t o) /\
  exists processed sorted_trinkets,
    Forall2 (combined_from cm) (filter (known cm) stats) processed /\
    Permutation processed sorted_trinkets /\
    published (events (process_and_save env cm (PList stats) st)) =
      [json_dumps_indent2 (PList sorted_trinkets)] /\
    (result_upload_error env = false ->
       result_blob (final (process_and_save env cm (PList stats) st)) =
         Some (json_dumps_indent2 (PList sorted_trinkets))).
Proof.
  intros Hcm Hs.
  destruct (process_and_save_records env cm stats st Hcm Hs)
    as (processed & sorted_trinkets & F2 & P & S & ->).
  unfold after. cbn [result final events].
  split; [now destruct (result_upload_error env)|]. split.
  - intros t I U. split.
    + apply in_or_app. left.
      change (Log WARNING (MsgTrinketNotFound (stat_key t))) with (not_found_warning t).
      apply in_map, filter_In. auto.
    + intros o (card_info & L & _). unfold unknown, known in U.
      rewrite L in U. discriminate.
  - exists processed, sorted_trinkets. repeat split; auto.
    + rewrite published_app, published_warnings.
      now destruct (result_upload_error env).
    + intros ->. reflexivity.
Qed.

(** C8.  With a card map and statistics records at hand, the sequence
    handed to the upload of the result blob is non-decreasing in
    [avg_placement]; it is a rearrangement of the output records. *)
Theorem output_is_sorted (env : Env) (cm : card_map) (stats : list pyval)
  (st : state) :
  catalog_ok cm = true ->
  Forall (fun t => is_stat_record t = true) stats ->
  exists processed sorted_trinkets,
    Forall2 (combined_from cm) (filter (known cm) stats) processed /\
    sorted avg_placement processed = Ok sorted_trinkets /\
    Permutation processed sorted_trinkets /\
    published (events (process_and_save env cm (PList stats) st)) =
      [json_dumps_indent2 (PList sorted_trinkets)] /\
    StronglySorted placement_le sorted_trinkets /\
    (forall i j a b,
        (i < j)%nat ->
        nth_error sorted_trinkets i = Some a ->
        nth_error sorted_trinkets j = Some b ->
        exists p q,
          placement_value a = Some p /\ placement_value b = Some q /\ (p <= q)%Q).
Proof.
  intros Hcm Hs.
  destruct (join_records cm stats Hcm Hs [] st) as (processed & F2 & FP & J).
  destruct (sorted_by_placement processed FP) as (sorted_trinkets & E & P & S).
  exists processed, sorted_trinkets.
  split; [exact F2|]. split; [exact E|]. split; [exact P|]. split; [|split; [exact S|]].
  - unfold process_and_save. cbn [py_iter]. rewrite bind_lift_ok.
    rewrite (bind_ok _ _ _ _ _ _ J). cbn [app].
    rewrite E, bind_lift_ok, publish_eq.
    unfold after. cbn [events]. rewrite published_app, published_warnings.
    now destruct (result_upload_error env).
  - clear - S. induction S as [|x l S IH Hall]; intros i j a b Hij Hi Hj.
    + destruct i; discriminate.
    + destruct j as [|j]; [lia|]. cbn in Hj.
      destruct i as [|i].
      * cbn in Hi. injection Hi as ->.
        apply nth_error_In in Hj.
        rewrite Forall_forall in Hall. specialize (Hall b Hj).
        unfold placement_le in Hall.
        destruct (placement_value a) as [p|]; [|contradiction].
        destruct (placement_value b) as [q|]; [|contradiction].
        eauto.
      * cbn in Hi. apply (IH i j a b); auto. lia.
Qed.


(* ------------------------------------------------------------------ *)
(** *** The whole run *)

Lemma result_bind {A B} (m : M A) (f : A -> M B) (st : state) :
  result (bind m f st) =
  match result (m st) with
  | Ok a => result (f a (final (m st)))
  | Raise e => Raise e
  end.
Proof. unfold bind. now destruct (result (m st)). Qed.

Lemma final_bind {A B} (m : M A) (f : A -> M B) (st : state) :
  final (bind m f st) =
  match result (m st) with
  | Ok a => final (f a (final (m st)))
  | Raise e => final (m st)
  end.
Proof. unfold bind. now destruct (result (m st)). Qed.

Lemma events_bind {A B} (m : M A) (f : A -> M B) (st : state) :
  events (bind m f st) =
  (events (m st) ++
   match result (m st) with
   | Ok a => events (f a (final (m st)))
   | Raise e => []
   end)%list.
Proof. unfold bind. destruct (result (m st)); cbn; [reflexivity | now rewrite app_nil_r]. Qed.

Lemma get_trinket_stats_eq (env : Env) (st : state) :
  get_trinket_stats env st =
  {| result := Ok (stats_value env);
     final := st;
     events := match stats_response env with
               | Some _ => [Log INFO MsgFetchingStats; StatsGet]
               | None => [Log INFO MsgFetchingStats; StatsGet; Log ERROR MsgStatsApiFailed]
               end |}.
Proof.
  unfold get_trinket_stats, stats_value, try_except, requests_get_json, bind, log, emit,
    lift, ret.
  destruct (stats_response env); reflexivity.
Qed.

Lemma logs_only (evs : list event) :
  forallb is_log evs = true -> published evs = [] /\ cards_gets evs = 0%nat.
Proof.
  induction evs as [|ev evs IH]; [auto|].
  cbn. intros H. apply andb_true_iff in H. destruct H as [H1 H2].
  destruct ev; try discriminate. exact (IH H2).
Qed.

(** The join touches nothing: it only logs, and what it returns does not
    depend on the container. *)
Lemma join_pure (cm : card_map) (stats : list pyval) :
  forall processed st st0,
    join cm stats processed st =
      {| result := result (join cm stats processed st0);
         final := st;
         events := events (join cm stats processed st0) |} /\
    forallb is_log (events (join cm stats processed st0)) = true.
Proof.
  induction stats as [|t rest IH]; intros processed st st0; [split; reflexivity|].
  cbn [join].
  destruct (py_get t "trinket_dbf_id" PNone) as [dbf_id|e];
    [|rewrite !bind_lift_raise; split; reflexivity].
  rewrite !bind_lift_ok.
  destruct (cm_get dbf_id cm) as [card_info|e];
    [|rewrite !bind_lift_raise; split; reflexivity].
  rewrite !bind_lift_ok.
  destruct (truthy card_info).
  - destruct (combined_data card_info t dbf_id) as [o|e];
      [|rewrite !bind_lift_raise; split; reflexivity].
    rewrite !bind_lift_ok. apply IH.
  - rewrite !bind_log. unfold after. cbn [result final events].
    destruct (IH processed st st0) as [E L]. rewrite E. cbn [result final events].
    split; [reflexivity|]. cbn. exact L.
Qed.

Lemma process_and_save_published (env : Env) (cm : card_map) (trinket_stats : pyval)
  (st : state) :
  published (events (process_and_save env cm trinket_stats st)) = output_of cm trinket_stats /\
  cards_gets (events (process_and_save env cm trinket_stats st)) = 0%nat.
Proof.
  unfold process_and_save, output_of.
  destruct (py_iter trinket_stats) as [stats|e];
    [|rewrite bind_lift_raise; split; reflexivity].
  rewrite bind_lift_ok.
  destruct (join_pure cm stats [] st {| card_blob := None; result_blob := None |}) as [J L].
  destruct (logs_only _ L) as [LP LC].
  rewrite events_bind, J. cbn [result final events].
  rewrite published_app, cards_gets_app, LP, LC.
  destruct (result (join cm stats [] {| card_blob := None; result_blob := None |}))
    as [processed|e]; [|split; reflexivity].
  destruct (sorted avg_placement processed) as [sorted_trinkets|e];
    [|rewrite bind_lift_raise; split; reflexivity].
  rewrite bind_lift_ok, publish_eq.
  destruct (result_upload_error env); split; reflexivity.
Qed.

Lemma load_published (env : Env) (force_update : bool) (st : state) :
  published (events (get_card_data_and_map env force_update st)) = [].
Proof.
  assert (F : published (events (get_card_data_and_map env true st)) = []).
  { rewrite load_forced.
    destruct (cards_response env); [destruct (cards_upload_error env)|]; reflexivity. }
  destruct force_update; [exact F|].
  rewrite load_unforced.
  destruct (exists_error env); [reflexivity|].
  destruct (card_blob st); [destruct (cache_read env st)|]; try reflexivity;
    unfold after; cbn [events]; rewrite published_app, F; reflexivity.
Qed.

Lemma refresh_published (env : Env) (cm : card_map) (was_updated : bool)
  (trinket_stats : pyval) (st : state) :
  published (events (refresh_if_missing env cm was_updated trinket_stats st)) = [].
Proof.
  rewrite refresh_if_missing_eq.
  destruct (res_bind _ _) as [missing|e]; [|reflexivity].
  destruct (missing && negb was_updated); [|reflexivity].
  cbn [events].
  change (published (Log INFO MsgForcingUpdate :: ?l)) with (published l).
  apply load_published.
Qed.

Lemma refresh_cards_gets (env : Env) (cm : card_map) (was_updated : bool)
  (trinket_stats : pyval) (st : state) :
  (cards_gets (events (refresh_if_missing env cm was_updated trinket_stats st)) <=
   if was_updated then 0 else 1)%nat.
Proof.
  rewrite refresh_if_missing_eq.
  destruct (res_bind _ _) as [missing|e]; [|destruct was_updated; cbn; lia].
  destruct missing, was_updated; cbn [andb negb events]; try (cbn; lia).
  change (cards_gets (Log INFO MsgForcingUpdate :: ?l)) with (cards_gets l).
  rewrite load_forced_cards_gets. lia.
Qed.

(** What the first load returns tells whether it went to the API. *)
Lemma load_unforced_cards_gets (env : Env) (st : state) :
  (cards_gets (events (get_card_data_and_map env false st)) <= 1)%nat /\
  forall m,
    result (get_card_data_and_map env false st) = Ok (Some m, false) ->
    cards_gets (events (get_card_data_and_map env false st)) = 0%nat.
Proof.
  pose proof (load_forced_cards_gets env st) as F.
  assert (R : forall m, result (get_card_data_and_map env true st) <> Ok (Some m, false)).
  { intros m. rewrite load_forced.
    destruct (cards_response env) as [payload|]; [|discriminate].
    destruct (cards_upload_error env); [discriminate|].
    cbn. destruct (build_card_map payload); discriminate. }
  rewrite load_unforced.
  destruct (exists_error env); [split; [cbn; lia | discriminate]|].
  destruct (card_blob st); [destruct (cache_read env st)|];
    unfold after; cbn [result events]; try rewrite cards_gets_app, F;
    (split; [cbn; lia|]); intros m H; try reflexivity; now apply R in H.
Qed.


(** Lines 65 to 78: a run without a usable connection ends before any
    request. *)
Lemma main_not_configured (env : Env) (st : state) :
  connection_string_set env = false ->
  main env st =
    {| result := Ok (Some {| body := ServerConfigError; status_code := 500 |});
       final := st;
       events := (greeting env ++ [Log ERROR MsgNoConnectionString])%list |}.
Proof.
  intros C. unfold main, greeting. rewrite C.
  destruct (past_due env); reflexivity.
Qed.

Lemma main_not_connected (env : Env) (st : state) :
  connection_string_set env = true ->
  connect_error env = true ->
  main env st =
    {| result := Ok (Some {| body := StorageUnreachable; status_code := 500 |});
       final := st;
       events := (greeting env ++ [Log ERROR MsgConnectFailed])%list |}.
Proof.
  intros C E. unfold main, greeting. rewrite C, E.
  destruct (past_due env); reflexivity.
Qed.

(** Lines 80 to 127 for a run that got its client. *)
Lemma main_connected (env : Env) (st : state) :
  connection_string_set env = true ->
  connect_error env = false ->
  main env st =
    after (greeting env)
      (bind (get_card_data_and_map env false)
         (fun x =>
            let (card_map, was_updated) := x in
            if negb (cm_truthy card_map)
            then ret (Some {| body := NoCardData; status_code := 500 |})
            else
              bind (get_trinket_stats env)
                (fun trinket_stats =>
                   if negb (truthy trinket_stats)
                   then ret (Some {| body := NoTrinketStats; status_code := 500 |})
                   else
                     bind (refresh_if_missing env (the_dict card_map) was_updated
                             trinket_stats)
                       (fun refreshed =>
                          match refreshed with
                          | inl response => ret (Some response)
                          | inr cm =>
                              bind (process_and_save env cm trinket_stats)
                                (fun _ => ret None)
                          end))) st).
Proof.
  intros C E. unfold main, greeting. rewrite C, E. cbn [negb].
  destruct (past_due env).
  - rewrite bind_log, bind_log, after_after. reflexivity.
  - rewrite bind_ret, bind_log. reflexivity.
Qed.

Lemma published_greeting (env : Env) : published (greeting env) = [].
Proof. unfold greeting. now destruct (past_due env). Qed.

Lemma cards_gets_greeting (env : Env) : cards_gets (greeting env) = 0%nat.
Proof. unfold greeting. now destruct (past_due env). Qed.

(** What a run hands to the upload of the result blob. *)
Lemma main_published (env : Env) (st : state) :
  published (events (main env st)) =
  if connection_string_set env && negb (connect_error env)
  then
    match result (get_card_data_and_map env false st) with
    | Ok (card_map, was_updated) =>
        if cm_truthy card_map && truthy (stats_value env)
        then
          match result (refresh_if_missing env (the_dict card_map) was_updated
                          (stats_value env)
                          (final (get_card_data_and_map env false st))) with
          | Ok (inr cm) => output_of cm (stats_value env)
          | _ => []
          end
        else []
    | Raise _ => []
    end
  else [].
Proof.
  destruct (connection_string_set env) eqn:C;
    [|rewrite main_not_configured by exact C; cbn [events andb];
      now rewrite published_app, published_greeting].
  destruct (connect_error env) eqn:E;
    [rewrite main_not_connected by assumption; cbn [events andb negb];
      now rewrite published_app, published_greeting|].
  rewrite main_connected by assumption. cbn [andb negb].
  unfold after. cbn [events].
  rewrite published_app, published_greeting, events_bind, published_app, load_published.
  cbn [app].
  destruct (result (get_card_data_and_map env false st)) as [[card_map was_updated]|e];
    [|reflexivity].
  destruct (cm_truthy card_map); [|reflexivity]. cbn [negb andb].
  rewrite events_bind, get_trinket_stats_eq. cbn [result final events].
  rewrite published_app.
  replace (published match stats_response env with
                     | Some _ => [Log INFO MsgFetchingStats; StatsGet]
                     | None => [Log INFO MsgFetchingStats; StatsGet;
                                Log ERROR MsgStatsApiFailed]
                     end) with (@nil string) by now destruct (stats_response env).
  cbn [app].
  destruct (truthy (stats_value env)); [|reflexivity]. cbn [negb].
  rewrite events_bind, published_app, refresh_published. cbn [app].
  destruct (result (refresh_if_missing env (the_dict card_map) was_updated
                      (stats_value env) (final (get_card_data_and_map env false st))))
    as [[response|cm]|e]; try reflexivity.
  rewrite events_bind, published_app.
  destruct (process_and_save_published env cm (stats_value env)
              (final (refresh_if_missing env (the_dict card_map) was_updated
                        (stats_value env) (final (get_card_data_and_map env false st)))))
    as [P _].
  rewrite P. destruct (result (process_and_save _ _ _ _)); cbn; now rewrite app_nil_r.
Qed.


Lemma load_result_eq (env : Env) (force_update : bool) (st : state) :
  result (get_card_data_and_map env force_update st) = load_result env force_update st.
Proof.
  assert (F : result (get_card_data_and_map env true st) = load_result env true st).
  { rewrite load_forced. unfold load_result.
    destruct (cards_response env); [destruct (cards_upload_error env)|]; reflexivity. }
  destruct force_update; [exact F|].
  rewrite load_unforced. unfold load_result at 1. fold (load_result env true st).
  destruct (exists_error env); [reflexivity|].
  destruct (card_blob st); [destruct (cache_read env st)|];
    unfold after; cbn [result]; auto.
Qed.

Lemma refresh_result_eq (env : Env) (cm : card_map) (was_updated : bool)
  (trinket_stats : pyval) (st : state) :
  result (refresh_if_missing env cm was_updated trinket_stats st) =
  match (stats <- py_iter trinket_stats ;; any_missing cm stats)%res with
  | Raise e => Raise e
  | Ok missing =>
      if missing && negb was_updated
      then match load_result env true st with
           | Ok (card_map', _) =>
               if cm_truthy card_map' then Ok (inr (the_dict card_map'))
               else Ok (inl {| body := CardUpdateFailed; status_code := 500 |})
           | Raise e => Raise e
           end
      else Ok (inr cm)
  end.
Proof.
  rewrite refresh_if_missing_eq.
  destruct (res_bind _ _) as [missing|e]; [|reflexivity].
  destruct (missing && negb was_updated); [|reflexivity].
  cbn [result]. now rewrite load_result_eq.
Qed.

Lemma output_of_at_most_one (cm : card_map) (trinket_stats : pyval) :
  output_of cm trinket_stats = [] \/ exists d, output_of cm trinket_stats = [d].
Proof.
  unfold output_of.
  destruct (py_iter trinket_stats); [|auto].
  destruct (result _); [|auto].
  destruct (sorted _ _); eauto.
Qed.

(** A run hands at most one text to the upload of the result blob. *)
Lemma main_published_at_most_one (env : Env) (st : state) :
  published (events (main env st)) = [] \/
  exists d, published (events (main env st)) = [d].
Proof.
  rewrite main_published.
  destruct (_ && _); [|auto].
  destruct (result _) as [[card_map was_updated]|]; [|auto].
  destruct (_ && _); [|auto].
  destruct (result _) as [[?|cm]|]; auto.
  apply output_of_at_most_one.
Qed.

Lemma cache_read_same (env1 env2 : Env) (st1 st2 : state) :
  same_upstream env1 st1 env2 st2 -> cache_read env1 st1 = cache_read env2 st2.
Proof.
  intros (B & _ & D & _ & _). unfold cache_read. now rewrite B, D.
Qed.

(** Two loads on the same upstream data that both return, return the
    same. *)
Lemma load_result_same (env1 env2 : Env) (st1 st2 : state) (force_update : bool)
  (r1 r2 : option card_map * bool) :
  same_upstream env1 st1 env2 st2 ->
  load_result env1 force_update st1 = Ok r1 ->
  load_result env2 force_update st2 = Ok r2 ->
  r1 = r2.
Proof.
  intros U. pose proof (cache_read_same _ _ _ _ U) as CR.
  destruct U as (B & X & D & C & S).
  unfold load_result. rewrite CR, B, X, C.
  destruct force_update; [|destruct (exists_error env2); [discriminate|];
                            destruct (card_blob st2); [destruct (cache_read env2 st2)|]];
    try congruence;
    destruct (cards_response env2) as [payload|]; try congruence;
    destruct (cards_upload_error env1); try discriminate;
    destruct (cards_upload_error env2); try discriminate;
    congruence.
Qed.

(** C9.  Two runs that see the same upstream data -- the same cache blob,
    the same answer of the card catalogue API, the same answer of the
    statistics API -- and that both get as far as the upload of the result
    blob hand the same text to it; a run hands over at most one text.  How
    late the timer fires and what the result blob held before play no
    part; a run that is not configured, cannot store the card blob or
    fails on the data hands over nothing.  When the two runs are also
    configured alike and equally able to store the card blob, they hand
    over the same, text or nothing. *)
Theorem same_upstream_same_output (env1 env2 : Env) (st1 st2 : state) :
  same_upstream env1 st1 env2 st2 ->
  (forall d1 d2,
      In d1 (published (events (main env1 st1))) ->
      In d2 (published (events (main env2 st2))) ->
      d1 = d2) /\
  (published (events (main env1 st1)) = [] \/
   exists d, published (events (main env1 st1)) = [d]) /\
  (connection_string_set env1 = connection_string_set env2 ->
   connect_error env1 = connect_error env2 ->
   cards_upload_error env1 = cards_upload_error env2 ->
   published (events (main env1 st1)) = published (events (main env2 st2))).
Proof.
  intros U.
  assert (SV : stats_value env1 = stats_value env2).
  { unfold stats_value. destruct U as (_ & _ & _ & _ & ->). reflexivity. }
  split; [|split; [apply main_published_at_most_one|]].
  - intros d1 d2.
    rewrite !main_published, !load_result_eq, SV.
    destruct (connection_string_set env1 && negb (connect_error env1));
      [|intros []].
    destruct (connection_string_set env2 && negb (connect_error env2));
      [|intros _ []].
    destruct (load_result env1 false st1) as [[m1 w1]|] eqn:L1; [|intros []].
    destruct (load_result env2 false st2) as [[m2 w2]|] eqn:L2; [|intros _ []].
    pose proof (load_result_same _ _ _ _ _ _ _ U L1 L2) as E.
    injection E as -> ->.
    destruct (cm_truthy m2 && truthy (stats_value env2)); [|intros []].
    rewrite !refresh_result_eq.
    destruct (res_bind _ _) as [missing|]; [|intros []].
    destruct (missing && negb w2).
    + destruct (load_result env1 true _) as [[m1' w1']|] eqn:F1; [|intros []].
      destruct (load_result env2 true _) as [[m2' w2']|] eqn:F2; [|intros _ []].
      assert (E : (m1', w1') = (m2', w2')).
      { unfold load_result in F1, F2. destruct U as (_ & _ & _ & C & _).
        rewrite C in F1.
        destruct (cards_response env2) as [payload|]; [|congruence].
        destruct (cards_upload_error env1); [discriminate|].
        destruct (cards_upload_error env2); [discriminate|]. congruence. }
      injection E as -> ->.
      destruct (cm_truthy m2'); [|intros []].
      destruct (output_of_at_most_one (the_dict m2') (stats_value env2)) as [->|[d ->]].
      * intros [].
      * intros [<-|[]] [<-|[]]. reflexivity.
    + destruct (output_of_at_most_one (the_dict m2) (stats_value env2)) as [->|[d ->]].
      * intros [].
      * intros [<-|[]] [<-|[]]. reflexivity.
  - intros C E UP.
    pose proof (cache_read_same _ _ _ _ U) as CR.
    rewrite !main_published, !load_result_eq, SV, C, E.
    assert (LR : forall f sa sb, card_blob sa = card_blob sb ->
                   cache_read env1 sa = cache_read env2 sb ->
                   load_result env1 f sa = load_result env2 f sb).
    { intros f sa sb Hb Hc. unfold load_result. destruct U as (_ & X & _ & R & _).
      now rewrite Hb, Hc, X, R, UP. }
    assert (F : forall sa sb, load_result env1 true sa = load_result env2 true sb).
    { intros sa sb. unfold load_result. destruct U as (_ & _ & _ & R & _).
      now rewrite R, UP. }
    destruct U as (B & _). rewrite (LR false st1 st2 B CR).
    destruct (connection_string_set env2 && negb (connect_error env2)); [|reflexivity].
    destruct (load_result env2 false st2) as [[m w]|]; [|reflexivity].
    destruct (cm_truthy m && truthy (stats_value env2)); [|reflexivity].
    rewrite !refresh_result_eq.
    destruct (res_bind _ _) as [missing|]; [|reflexivity].
    destruct (missing && negb w); [|reflexivity].
    now rewrite (F _ (final (get_card_data_and_map env2 false st2))).
Qed.


Lemma cards_gets_stats (env : Env) (st : state) :
  cards_gets (events (get_trinket_stats env st)) = 0%nat.
Proof. rewrite get_trinket_stats_eq. cbn [events]. now destruct (stats_response env). Qed.

(** Whatever the data and however the storage behaves, a run asks the card
    catalogue API at most once. *)
Lemma cards_get_at_most_once (env : Env) (st : state) :
  (cards_gets (events (main env st)) <= 1)%nat.
Proof.
  destruct (connection_string_set env) eqn:C;
    [|rewrite main_not_configured by exact C; cbn [events];
      rewrite cards_gets_app, cards_gets_greeting; cbn; lia].
  destruct (connect_error env) eqn:E;
    [rewrite main_not_connected by assumption; cbn [events];
      rewrite cards_gets_app, cards_gets_greeting; cbn; lia|].
  rewrite main_connected by assumption.
  unfold after. cbn [events].
  rewrite cards_gets_app, cards_gets_greeting, events_bind, cards_gets_app.
  destruct (load_unforced_cards_gets env st) as [L1 L0].
  destruct (result (get_card_data_and_map env false st))
    as [[card_map was_updated]|e] eqn:R; [|cbn; lia].
  destruct card_map as [[|entry cm]|]; cbn [cm_truthy negb]; try (cbn; lia).
  rewrite events_bind, cards_gets_app, cards_gets_stats.
  rewrite get_trinket_stats_eq. cbn [result final].
  destruct (truthy (stats_value env)); cbn [negb]; [|cbn; lia].
  rewrite events_bind, cards_gets_app.
  pose proof (refresh_cards_gets env (the_dict (Some (entry :: cm))) was_updated
                (stats_value env) (final (get_card_data_and_map env false st))) as RG.
  assert (L : was_updated = false ->
              cards_gets (events (get_card_data_and_map env false st)) = 0%nat).
  { intros ->. now apply (L0 (entry :: cm)). }
  match goal with
  | |- context [result (refresh_if_missing ?a ?b ?c ?d ?e)] =>
      pose proof (refresh_cards_gets a b c d e) as RG';
      set (o2 := refresh_if_missing a b c d e) in *
  end.
  destruct (result o2) as [[response|cm0]|].
  - change (cards_gets (events (ret (Some response) (final o2)))) with 0%nat.
    destruct was_updated; [lia | rewrite L by reflexivity; cbn in RG'; lia].
  - rewrite events_bind, cards_gets_app.
    destruct (process_and_save_published env cm0 (stats_value env) (final o2)) as [_ ->].
    assert (Z0 : forall r : res unit,
               cards_gets match r with
                          | Ok _ => events (ret (@None HttpResponse)
                                              (final (process_and_save env cm0 (stats_value env)
                                                        (final o2))))
                          | Raise _ => []
                          end = 0%nat) by (intros []; reflexivity).
    rewrite Z0.
    destruct was_updated; [lia | rewrite L by reflexivity; cbn in RG'; lia].
  - change (cards_gets []) with 0%nat.
    destruct was_updated; [lia | rewrite L by reflexivity; cbn in RG'; lia].
Qed.

Lemma cm_set_ok (k v : pyval) (cm : card_map) :
  catalog_ok cm = true -> catalog_entry_ok (k, v) = true ->
  catalog_ok (cm_set k v cm) = true.
Proof.
  unfold catalog_ok. intros H Hv.
  induction cm as [|[k' v'] cm IH]; cbn in *.
  - now rewrite Hv.
  - apply andb_true_iff in H. destruct H as [H1 H2].
    destruct (py_eq k' k); cbn.
    + apply andb_true_iff. split; [exact Hv | exact H2].
    + apply andb_true_iff. split; [exact H1 | auto].
Qed.

Lemma card_map_from_ok (cards : list pyval) :
  Forall (fun c => is_card_record c = true) cards ->
  forall acc cm,
    catalog_ok acc = true -> card_map_from cards acc = Ok cm -> catalog_ok cm = true.
Proof.
  induction 1 as [|card rest Hc _ IH]; intros acc cm Ha; cbn [card_map_from].
  - now intros [= <-].
  - destruct card as [| | | | | |d]; try discriminate Hc.
    unfold res_bind. cbn [py_contains py_getitem].
    destruct (assoc "dbfId" d) as [k|] eqn:K; [|apply IH, Ha].
    destruct (hashable k); [|discriminate].
    apply IH. apply cm_set_ok; [exact Ha|].
    unfold catalog_entry_ok. cbn [snd]. rewrite Hc, K. reflexivity.
Qed.

(** The card map built from Card Records holds Card Records. *)
Lemma build_card_map_ok (cards : list pyval) (cm : card_map) :
  Forall (fun c => is_card_record c = true) cards ->
  build_card_map (PList cards) = Ok cm -> catalog_ok cm = true.
Proof.
  intros H. unfold build_card_map. cbn [py_iter res_bind].
  now apply card_map_from_ok.
Qed.

Lemma card_map_from_no_keys (cards : list pyval) (acc : card_map) :
  Forall (fun c => exists d, c = PDict d /\ assoc "dbfId" d = None) cards ->
  card_map_from cards acc = Ok acc.
Proof.
  induction 1 as [|card rest (d & -> & K) _ IH]; [reflexivity|].
  cbn [card_map_from py_contains]. rewrite K. exact IH.
Qed.

(** C10.  A run that has its client treats an empty answer like no answer.
    When the load returns an empty card map -- as it does when the API
    answers with an empty array or with records none of which has a
    ["dbfId"] -- the run ends with the response it ends with when the load
    returns [None], before the statistics are asked for.  When the
    statistics come back empty (or false in any other way) the run ends
    with the response it ends with when fetching them failed, and nothing is
    handed to the upload of the result blob. *)
Theorem empty_is_treated_as_missing (env : Env) (st : state) :
  connection_string_set env = true ->
  connect_error env = false ->
  (forall card_map was_updated,
      result (get_card_data_and_map env false st) = Ok (card_map, was_updated) ->
      card_map = None \/ card_map = Some [] ->
      main env st =
        after (greeting env)
          {| result := Ok (Some {| body := NoCardData; status_code := 500 |});
             final := final (get_card_data_and_map env false st);
             events := events (get_card_data_and_map env false st) |}) /\
  (forall card_map was_updated,
      result (get_card_data_and_map env false st) = Ok (card_map, was_updated) ->
      cm_truthy card_map = true ->
      stats_response env = None \/
      (exists v, stats_response env = Some v /\ truthy v = false) ->
      result (main env st) = Ok (Some {| body := NoTrinketStats; status_code := 500 |}) /\
      final (main env st) = final (get_card_data_and_map env false st) /\
      published (events (main env st)) = []) /\
  (forall cards,
      Forall (fun c => exists d, c = PDict d /\ assoc "dbfId" d = None) cards ->
      build_card_map (PList cards) = Ok []) /\
  truthy (PList []) = false.
Proof.
  intros C E. split; [|split; [|split]].
  - intros card_map was_updated R H.
    rewrite main_connected by assumption. f_equal.
    unfold bind. rewrite R.
    assert (T : cm_truthy card_map = false) by (destruct H as [->| ->]; reflexivity).
    rewrite T. cbn. now rewrite app_nil_r.
  - intros card_map was_updated R T S.
    assert (F : truthy (stats_value env) = false).
    { unfold stats_value. destruct S as [->|(v & -> & F)]; auto. }
    split; [|split].
    + rewrite main_connected by assumption. unfold after. cbn [result].
      rewrite result_bind, R, T. cbn [negb].
      rewrite result_bind, get_trinket_stats_eq. cbn [result final]. now rewrite F.
    + rewrite main_connected by assumption. unfold after. cbn [final].
      rewrite final_bind, R, T. cbn [negb].
      rewrite final_bind, get_trinket_stats_eq. cbn [result final]. now rewrite F.
    + rewrite main_published, R, T, F. now destruct (_ && _).
  - intros cards H. unfold build_card_map. cbn [py_iter res_bind].
    now apply card_map_from_no_keys.
  - reflexivity.
Qed.


(* ================================================================== *)
(** ** Further properties of the module *)
(* ================================================================== *)

(* ------------------------------------------------------------------ *)
(** *** Runs that never get a client *)

(** Without a connection string (unset or empty), or when the client
    cannot be built from it, the run answers 500 at once: it issues no
    request, only logs, and leaves the container as it found it. *)
Theorem no_client_no_request (env : Env) (st : state) :
  connection_string_set env = false \/ connect_error env = true ->
  result (main env st) =
    Ok (Some {| body := if connection_string_set env then StorageUnreachable
                        else ServerConfigError;
                status_code := 500 |}) /\
  final (main env st) = st /\
  forallb is_log (events (main env st)) = true.
Proof.
  intros H.
  destruct (connection_string_set env) eqn:C.
  - destruct H as [H|H]; [discriminate|].
    rewrite main_not_connected by assumption.
    repeat split. cbn [events]. unfold greeting. now destruct (past_due env).
  - rewrite main_not_configured by assumption.
    repeat split. cbn [events]. unfold greeting. now destruct (past_due env).
Qed.

(* ------------------------------------------------------------------ *)
(** *** What the loader does to the container *)

(** A load never touches the result blob, and it changes the card blob in
    one way only: by storing the serialised answer of the API, which it has
    then asked exactly once.  In particular a load served from the cache
    writes nothing. *)
Theorem load_writes_only_api_answer (env : Env) (force_update : bool) (st : state) :
  final (get_card_data_and_map env force_update st) = st \/
  exists payload,
    cards_response env = Some payload /\
    cards_gets (events (get_card_data_and_map env force_update st)) = 1%nat /\
    final (get_card_data_and_map env force_update st) =
      {| card_blob := Some (json_dumps payload); result_blob := result_blob st |}.
Proof.
  assert (F : final (get_card_data_and_map env true st) = st \/
              exists payload,
                cards_response env = Some payload /\
                final (get_card_data_and_map env true st) =
                  {| card_blob := Some (json_dumps payload);
                     result_blob := result_blob st |}).
  { rewrite load_forced.
    destruct (cards_response env) as [payload|]; [|now left].
    destruct (cards_upload_error env); [now left|].
    right. exists payload. split; reflexivity. }
  pose proof (load_forced_cards_gets env st) as G.
  destruct force_update.
  - destruct F as [F|(payload & R & F)]; [now left|].
    right. exists payload. auto.
  - rewrite load_unforced.
    destruct (exists_error env); [now left|].
    destruct (card_blob st); [destruct (cache_read env st)|];
      try (now left);
      unfold after; cbn [final events]; rewrite cards_gets_app, G;
      (destruct F as [F|(payload & R & F)]; [now left|]);
      right; exists payload; auto.
Qed.


(* ------------------------------------------------------------------ *)
(** *** The forced update that fails *)

(** When a trinket is missing from a card map that came from the cache and
    the API then fails, the step ends the run with the response of line
    93; the card map it was given is not used any further. *)
Theorem forced_update_failure (env : Env) (cm : card_map) (stats : list pyval)
  (st : state) :
  Forall (fun t => is_stat_record t = true) stats ->
  existsb (unknown cm) stats = true ->
  cards_response env = None ->
  refresh_if_missing env cm false (PList stats) st =
    {| result := Ok (inl {| body := CardUpdateFailed; status_code := 500 |});
       final := st;
       events := [ Log INFO MsgForcingUpdate; Log INFO MsgDownloadingCards; CardsGet;
                   Log ERROR MsgCardsApiFailed ] |}.
Proof.
  intros V M R.
  rewrite refresh_if_missing_eq. cbn [py_iter res_bind].
  rewrite (any_missing_records cm stats V), M. cbn [andb negb].
  rewrite load_forced, R. reflexivity.
Qed.

(* ------------------------------------------------------------------ *)
(** *** The upload of the result *)

(** On statistics records a failing upload of the result is logged and
    swallowed: the step returns normally, the container is as before, and
    the error is in the log right after the attempt. *)
Theorem result_upload_failure_is_logged (env : Env) (cm : card_map)
  (stats : list pyval) (st : state) :
  catalog_ok cm = true ->
  Forall (fun t => is_stat_record t = true) stats ->
  result_upload_error env = true ->
  result (process_and_save env cm (PList stats) st) = Ok tt /\
  final (process_and_save env cm (PList stats) st) = st /\
  exists data,
    events (process_and_save env cm (PList stats) st) =
      (map not_found_warning (filter (unknown cm) stats) ++
       [ResultUpload data; Log ERROR (MsgSaveFailed StorageError)])%list.
Proof.
  intros Hcm Hs U.
  destruct (process_and_save_records env cm stats st Hcm Hs)
    as (processed & sorted_trinkets & _ & _ & _ & ->).
  rewrite U. unfold after. cbn [result final events]. eauto.
Qed.


(* ------------------------------------------------------------------ *)
(** *** Keys of the card map *)

Lemma Qeq_bool_sym (p q : Q) : Qeq_bool p q = Qeq_bool q p.
Proof.
  destruct (Qeq_bool p q) eqn:A; destruct (Qeq_bool q p) eqn:B; auto.
  - apply Qeq_bool_eq in A. symmetry in A. apply Qeq_eq_bool in A. congruence.
  - apply Qeq_bool_eq in B. symmetry in B. apply Qeq_eq_bool in B. congruence.
Qed.

Lemma Qeq_bool_trans (p q r : Q) :
  Qeq_bool p q = true -> Qeq_bool p r = Qeq_bool q r.
Proof.
  intros H. apply Qeq_bool_eq in H.
  destruct (Qeq_bool p r) eqn:A; destruct (Qeq_bool q r) eqn:B; auto.
  - apply Qeq_bool_eq in A. rewrite H in A. apply Qeq_eq_bool in A. congruence.
  - apply Qeq_bool_eq in B. rewrite <- H in B. apply Qeq_eq_bool in B. congruence.
Qed.

(** On values that can be keys, [==] is an equivalence. *)
Lemma py_eq_refl (k : pyval) : hashable k = true -> py_eq k k = true.
Proof.
  destruct k; try discriminate; intros _; cbn;
    try apply Qeq_bool_refl; try reflexivity.
  apply String.eqb_refl.
Qed.

Lemma py_eq_sym (a b : pyval) :
  hashable a = true -> hashable b = true -> py_eq a b = py_eq b a.
Proof.
  destruct a; try discriminate; destruct b; try discriminate; intros _ _; cbn;
    try reflexivity; try apply Qeq_bool_sym.
  apply String.eqb_sym.
Qed.

Lemma py_eq_trans (a b c : pyval) :
  hashable a = true -> hashable b = true -> hashable c = true ->
  py_eq a b = true -> py_eq a c = py_eq b c.
Proof.
  destruct a; try discriminate; destruct b; try discriminate;
    destruct c; try discriminate; intros _ _ _; cbn;
    try reflexivity; try discriminate; try apply Qeq_bool_trans.
  intros H. apply String.eqb_eq in H. now subst.
Qed.

Lemma cm_set_keys_hashable (k v : pyval) (m : card_map) :
  hashable k = true -> keys_hashable m -> keys_hashable (cm_set k v m).
Proof.
  intros Hk. induction 1 as [|[k' v'] m Hk' Hm IH]; cbn.
  - repeat constructor. exact Hk.
  - destruct (py_eq k' k); constructor; auto.
Qed.

(** Assignment and lookup: the assigned key, and every key equal to it,
    now yields the new value; every other key yields what it did. *)
Lemma cm_lookup_set (k k' v : pyval) (m : card_map) :
  hashable k = true -> hashable k' = true -> keys_hashable m ->
  cm_lookup k (cm_set k' v m) = if py_eq k' k then Some v else cm_lookup k m.
Proof.
  intros Hk Hk'. induction 1 as [|[k1 v1] m Hk1 Hm IH]; cbn [cm_set cm_lookup].
  - destruct (py_eq k' k); reflexivity.
  - cbn [fst] in Hk1.
    destruct (py_eq k1 k') eqn:E; cbn [cm_lookup].
    + rewrite (py_eq_trans k1 k' k Hk1 Hk' Hk E).
      destruct (py_eq k' k); reflexivity.
    + rewrite IH.
      destruct (py_eq k1 k) eqn:A; [|reflexivity].
      destruct (py_eq k' k) eqn:B; [|reflexivity].
      pose proof (py_eq_trans k1 k k' Hk1 Hk Hk' A) as T.
      rewrite (py_eq_sym k k' Hk Hk'), B, E in T. discriminate T.
Qed.

Lemma card_map_from_last (cards : list pyval) :
  forall acc cm k,
    keys_hashable acc -> hashable k = true ->
    card_map_from cards acc = Ok cm ->
    cm_lookup k cm = last_card_with k cards (cm_lookup k acc).
Proof.
  induction cards as [|card rest IH]; intros acc cm k Ha Hk; cbn [card_map_from last_card_with].
  - now intros [= <-].
  - unfold res_bind.
    destruct card as [| | | | s | l | d]; cbn [py_contains py_getitem]; try discriminate.
    + destruct (contains "dbfId" s); [discriminate | apply IH; assumption].
    + destruct (existsb _ l); [discriminate | apply IH; assumption].
    + destruct (assoc "dbfId" d) as [k'|]; [|apply IH; assumption].
      destruct (hashable k') eqn:Hk'; [|discriminate].
      intros H.
      rewrite (IH _ _ k (cm_set_keys_hashable k' (PDict d) acc Hk' Ha) Hk H).
      now rewrite cm_lookup_set.
Qed.

(** Later duplicates win: in the card map built from a payload, a key
    yields the last card of the payload that carries an equal ["dbfId"];
    cards without ["dbfId"] are left out, and a key no card carries is
    absent. *)
Theorem card_map_last_wins (cards : list pyval) (cm : card_map) (k : pyval) :
  build_card_map (PList cards) = Ok cm ->
  hashable k = true ->
  cm_lookup k cm = last_card_with k cards None.
Proof.
  unfold build_card_map. cbn [py_iter res_bind]. intros H Hk.
  apply (card_map_from_last cards [] cm k); auto. constructor.
Qed.

(* ------------------------------------------------------------------ *)
(** *** The cache round trip *)

(** What a load stored, the next load finds: after a load from the API, a
    load that is not forced returns the same card map from the cache,
    reports that it did not update, asks no API and writes nothing --
    provided the blob can be read and [json.loads] gives back what
    [json.dumps] was given. *)
Theorem cache_round_trip (env : Env) (st : state) (payload : pyval) (cm : card_map) :
  cards_response env = Some payload ->
  cards_upload_error env = false ->
  build_card_map payload = Ok cm ->
  exists_error env = false ->
  download_error env = false ->
  json_loads (json_dumps payload) = Some payload ->
  result (get_card_data_and_map env true st) = Ok (Some cm, true) /\
  get_card_data_and_map env false (final (get_card_data_and_map env true st)) =
    {| result := Ok (Some cm, false);
       final := final (get_card_data_and_map env true st);
       events := [BlobExists; Log INFO MsgLoadingFromBlob; BlobDownload] |}.
Proof.
  intros R U B X D L.
  rewrite load_forced, R, U, B. cbn [result final]. split; [reflexivity|].
  rewrite load_unforced, X. cbn [card_blob].
  unfold cache_read, loads. rewrite D. cbn [card_blob]. rewrite L. cbn [res_bind].
  rewrite B. reflexivity.
Qed.


(* ------------------------------------------------------------------ *)
(** *** Responses and output *)

Lemma load_result_blob (env : Env) (force_update : bool) (st : state) :
  result_blob (final (get_card_data_and_map env force_update st)) = result_blob st.
Proof.
  assert (F : result_blob (final (get_card_data_and_map env true st)) = result_blob st).
  { rewrite load_forced.
    destruct (cards_response env); [destruct (cards_upload_error env)|]; reflexivity. }
  destruct force_update; [exact F|].
  rewrite load_unforced.
  destruct (exists_error env); [reflexivity|].
  destruct (card_blob st); [destruct (cache_read env st)|]; auto.
Qed.

Lemma refresh_result_blob (env : Env) (cm : card_map) (was_updated : bool)
  (trinket_stats : pyval) (st : state) :
  result_blob (final (refresh_if_missing env cm was_updated trinket_stats st)) =
  result_blob st.
Proof.
  rewrite refresh_if_missing_eq.
  destruct (res_bind _ _) as [missing|]; [|reflexivity].
  destruct (missing && negb was_updated); [|reflexivity].
  cbn [final]. apply load_result_blob.
Qed.

(** A run that answers with a response has handed nothing to the upload
    of the result blob and has left that blob as it was: there is no
    partial output beside an error response. *)
Theorem response_means_no_output (env : Env) (st : state) (response : HttpResponse) :
  result (main env st) = Ok (Some response) ->
  status_code response = 500 /\
  published (events (main env st)) = [] /\
  result_blob (final (main env st)) = result_blob st.
Proof.
  destruct (connection_string_set env) eqn:C;
    [|rewrite main_not_configured by exact C; cbn [result final events];
      intros [= <-]; rewrite published_app, published_greeting; auto].
  destruct (connect_error env) eqn:E;
    [rewrite main_not_connected by assumption; cbn [result final events];
      intros [= <-]; rewrite published_app, published_greeting; auto|].
  rewrite main_published, C, E. cbn [andb negb].
  rewrite main_connected by assumption. unfold after. cbn [result final].
  rewrite result_bind, final_bind.
  pose proof (load_result_blob env false st) as LB.
  destruct (result (get_card_data_and_map env false st)) as [[card_map was_updated]|];
    [|discriminate].
  destruct (cm_truthy card_map); cbn [negb andb];
    [|cbn [ret result final]; intros [= <-]; auto].
  rewrite result_bind, final_bind, get_trinket_stats_eq. cbn [result final].
  destruct (truthy (stats_value env)); cbn [negb];
    [|cbn [ret result final]; intros [= <-]; auto].
  rewrite result_bind, final_bind.
  pose proof (refresh_result_blob env (the_dict card_map) was_updated (stats_value env)
                (final (get_card_data_and_map env false st))) as RB.
  pose proof (refresh_result_eq env (the_dict card_map) was_updated (stats_value env)
                (final (get_card_data_and_map env false st))) as RR.
  destruct (result (refresh_if_missing env (the_dict card_map) was_updated
                      (stats_value env) (final (get_card_data_and_map env false st))))
    as [[r|cm]|]; [| |discriminate].
  - cbn [ret result final]. intros [= <-]. split; [|split; [reflexivity | congruence]].
    destruct (res_bind _ _) as [missing|]; [|discriminate RR].
    destruct (missing && negb was_updated); [|discriminate RR].
    destruct (load_result env true _) as [[m u]|]; [|discriminate RR].
    destruct (cm_truthy m); [discriminate RR|]. injection RR as ->. reflexivity.
  - rewrite result_bind.
    destruct (result (process_and_save _ _ _ _)); discriminate.
Qed.

Lemma stats_gets_app (a b : list event) :
  stats_gets (a ++ b) = (stats_gets a + stats_gets b)%nat.
Proof. unfold stats_gets. now rewrite filter_app, length_app. Qed.

Lemma stats_gets_logs (evs : list event) :
  forallb is_log evs = true -> stats_gets evs = 0%nat.
Proof.
  induction evs as [|ev evs IH]; [auto|].
  cbn. intros H. apply andb_true_iff in H. destruct H as [H1 H2].
  destruct ev; try discriminate. exact (IH H2).
Qed.

Lemma stats_gets_load (env : Env) (force_update : bool) (st : state) :
  stats_gets (events (get_card_data_and_map env force_update st)) = 0%nat.
Proof.
  assert (F : stats_gets (events (get_card_data_and_map env true st)) = 0%nat).
  { rewrite load_forced.
    destruct (cards_response env); [destruct (cards_upload_error env)|]; reflexivity. }
  destruct force_update; [exact F|].
  rewrite load_unforced.
  destruct (exists_error env); [reflexivity|].
  destruct (card_blob st); [destruct (cache_read env st)|]; try reflexivity;
    unfold after; cbn [events]; rewrite stats_gets_app, F; reflexivity.
Qed.

Lemma stats_gets_refresh (env : Env) (cm : card_map) (was_updated : bool)
  (trinket_stats : pyval) (st : state) :
  stats_gets (events (refresh_if_missing env cm was_updated trinket_stats st)) = 0%nat.
Proof.
  rewrite refresh_if_missing_eq.
  destruct (res_bind _ _) as [missing|]; [|reflexivity].
  destruct (missing && negb was_updated); [|reflexivity].
  cbn [events].
  change (stats_gets (Log INFO MsgForcingUpdate :: ?l)) with (stats_gets l).
  apply stats_gets_load.
Qed.

Lemma stats_gets_process (env : Env) (cm : card_map) (trinket_stats : pyval)
  (st : state) :
  stats_gets (events (process_and_save env cm trinket_stats st)) = 0%nat.
Proof.
  unfold process_and_save.
  destruct (py_iter trinket_stats) as [stats|e];
    [|rewrite bind_lift_raise; reflexivity].
  rewrite bind_lift_ok.
  destruct (join_pure cm stats [] st {| card_blob := None; result_blob := None |}) as [J L].
  rewrite events_bind, J. cbn [result final events].
  rewrite stats_gets_app, (stats_gets_logs _ L).
  destruct (result (join cm stats [] {| card_blob := None; result_blob := None |}))
    as [processed|e]; [|reflexivity].
  destruct (sorted avg_placement processed) as [sorted_trinkets|e];
    [|rewrite bind_lift_raise; reflexivity].
  rewrite bind_lift_ok, publish_eq.
  destruct (result_upload_error env); reflexivity.
Qed.

(** The statistics API is asked at most once in a run, and only by a run
    whose first load came back with a card map that is not empty. *)
Theorem stats_asked_once_after_cards (env : Env) (st : state) :
  (stats_gets (events (main env st)) <= 1)%nat /\
  (stats_gets (events (main env st)) = 1%nat <->
   connection_string_set env = true /\ connect_error env = false /\
   exists card_map was_updated,
     result (get_card_data_and_map env false st) = Ok (card_map, was_updated) /\
     cm_truthy card_map = true).
Proof.
  assert (G : stats_gets (greeting env) = 0%nat)
    by (unfold greeting; now destruct (past_due env)).
  destruct (connection_string_set env) eqn:C;
    [|rewrite main_not_configured by exact C; cbn [events];
      rewrite stats_gets_app, G; cbn; split; [lia|];
      split; [discriminate | intros (? & _); discriminate]].
  destruct (connect_error env) eqn:E;
    [rewrite main_not_connected by assumption; cbn [events];
      rewrite stats_gets_app, G; cbn; split; [lia|];
      split; [discriminate | intros (_ & ? & _); discriminate]|].
  rewrite main_connected by assumption. unfold after. cbn [events].
  rewrite stats_gets_app, G, events_bind, stats_gets_app, stats_gets_load.
  destruct (result (get_card_data_and_map env false st)) as [[card_map was_updated]|e];
    [|cbn; split; [lia|]; split; [discriminate | intros (_ & _ & ? & ? & ? & _); discriminate]].
  destruct (cm_truthy card_map) eqn:T; cbn [negb];
    [|cbn; split; [lia|]; split;
      [discriminate | intros (_ & _ & m & u & [= <- <-] & T'); congruence]].
  rewrite events_bind, stats_gets_app, get_trinket_stats_eq. cbn [result final events].
  assert (S1 : stats_gets match stats_response env with
                          | Some _ => [Log INFO MsgFetchingStats; StatsGet]
                          | None => [Log INFO MsgFetchingStats; StatsGet;
                                     Log ERROR MsgStatsApiFailed]
                          end = 1%nat) by now destruct (stats_response env).
  rewrite S1.
  assert (Z0 : stats_gets
                 (events
                    ((if negb (truthy (stats_value env))
                      then ret (Some {| body := NoTrinketStats; status_code := 500 |})
                      else
                        bind (refresh_if_missing env (the_dict card_map) was_updated
                                (stats_value env))
                          (fun refreshed =>
                             match refreshed with
                             | inl response => ret (Some response)
                             | inr cm =>
                                 bind (process_and_save env cm (stats_value env))
                                   (fun _ => ret None)
                             end)) (final (get_card_data_and_map env false st)))) = 0%nat).
  { destruct (truthy (stats_value env)); cbn [negb]; [|reflexivity].
    rewrite events_bind, stats_gets_app, stats_gets_refresh.
    destruct (result (refresh_if_missing _ _ _ _ _)) as [[r|cm]|]; try reflexivity.
    rewrite events_bind, stats_gets_app, stats_gets_process.
    now destruct (result (process_and_save _ _ _ _)). }
  rewrite Z0. split; [lia|]. split; [|reflexivity].
  intros _. repeat split. eauto.
Qed.


(* ------------------------------------------------------------------ *)
(** *** Defaults, and what they do not cover *)

(** The defaults of the [get] calls apply to absent keys: a record
    without pick rate gets ["0.00%"], without tier ["N/A"], without
    distribution an empty mapping; a card without text gets the empty text
    and without name [None]. *)
Theorem absent_fields_get_defaults (c d : list (string * pyval)) (dbf_id out : pyval) :
  combined_data (PDict c) (PDict d) dbf_id = Ok out ->
  (assoc "pick_rate" d = None -> py_get out "pick_rate" PNone = Ok (PStr "0.00%")) /\
  (assoc "tier" d = None -> py_get out "tier" PNone = Ok (PStr "N/A")) /\
  (assoc "final_placement_distribution" d = None ->
     py_get out "placement_dist" PNone = Ok (PDict [])) /\
  (assoc "text" c = None -> py_get out "text" PNone = Ok (PStr "")) /\
  (assoc "name" c = None -> py_get out "name" PNone = Ok PNone) /\
  py_get out "dbf_id" PNone = Ok dbf_id.
Proof.
  intros H. apply combined_data_inv in H.
  destruct H as (dist & values & name & avg & rate & rate_s & tier & group & text &
                 Hd & Hv & Hn & _ & Hr & Hf & Ht & _ & Hx & ->).
  rewrite py_get_dict in Hd, Hn, Hr, Ht, Hx.
  repeat split; intros A; rewrite A in *; cbn.
  - injection Hr as <-. cbn in Hf. injection Hf as <-. reflexivity.
  - injection Ht as <-. reflexivity.
  - injection Hd as <-. cbn in Hv. injection Hv as <-. reflexivity.
  - injection Hx as <-. reflexivity.
  - injection Hn as <-. reflexivity.
Qed.

(** A key that is present with a value of the wrong type is not replaced
    by the default: the record is only built when a present tier and a
    present text are strings and a present pick rate is a number.  A JSON
    [null] in any of them makes the construction raise. *)
Theorem present_fields_must_fit (c d : list (string * pyval)) (dbf_id out : pyval) :
  combined_data (PDict c) (PDict d) dbf_id = Ok out ->
  (forall v, assoc "tier" d = Some v -> is_str v = true) /\
  (forall v, assoc "text" c = Some v -> is_str v = true) /\
  (forall v, assoc "pick_rate" d = Some v -> is_number v = true).
Proof.
  intros H. apply combined_data_inv in H.
  destruct H as (dist & values & name & avg & rate & rate_s & tier & group & text &
                 _ & _ & _ & _ & Hr & Hf & Ht & _ & Hx & _).
  rewrite py_get_dict in Hr, Ht, Hx.
  repeat split; intros v A; rewrite A in *.
  - injection Ht as ->. reflexivity.
  - injection Hx as ->. reflexivity.
  - injection Hr as ->. destruct rate; try discriminate Hf; reflexivity.
Qed.

(* ------------------------------------------------------------------ *)
(** *** Pick rates that are integers *)

Lemma format_float_2f_integer (neg : bool) (m : N) :
  format_float_2f neg m 0 = (if neg then "-" else "") ++ dec (Z.of_N m) ++ ".00".
Proof.
  unfold format_float_2f, float_val, round_half_even.
  cbn [Qpower Qmult inject_Z Qnum Qden Pos.mul].
  rewrite Z.mul_1_r, Zdiv_1_r, Zmod_1_r. cbn [Z.mul Z.compare].
  rewrite Z_div_mult by lia. rewrite Z_mod_mult. reflexivity.
Qed.

(** An integer pick rate below [2^53] in size is printed as that integer
    followed by [".00%"]: no digit is lost in the conversion to float. *)
Theorem integer_pick_rate (z : Z) :
  Z.abs z < 2 ^ 53 ->
  format_2f (PInt z) = Ok ((if z <? 0 then "-" else "") ++ dec (Z.abs z) ++ ".00").
Proof.
  intros H. cbn [format_2f]. rewrite float_of_int_exact by exact H.
  rewrite format_float_2f_integer, Z2N.id by lia. reflexivity.
Qed.

(* ------------------------------------------------------------------ *)
(** *** Text without markup *)

Lemma replace_from_absent (c : ascii) (old new s : string) :
  occurs c s = false -> replace_from (String c old) new O s = s.
Proof.
  induction s as [|c' s IH]; [reflexivity|].
  cbn [occurs replace_from String.prefix]. intros H.
  apply orb_false_iff in H. destruct H as [H1 H2].
  destruct (Ascii.ascii_dec c c') as [->|N].
  - rewrite Ascii.eqb_refl in H1. discriminate.
  - rewrite IH by exact H2. reflexivity.
Qed.

(** A card text in which neither a backslash nor [<] occurs goes into
    the output unchanged. *)
Theorem plain_text_unchanged (s : string) :
  occurs "\" s = false -> occurs "<" s = false -> clean_text s = s.
Proof.
  intros B L. unfold clean_text, replace.
  rewrite (replace_from_absent "\" "n" " " s B).
  now rewrite !(replace_from_absent "<" _ "" s L).
Qed.

End Pipeline.

(* ================================================================== *)
(** ** The properties at work on the sample data *)
(* ================================================================== *)

Lemma forced_update_condition_witness :
  Forall (fun t => is_stat_record t = true) sample_stats /\
  forced_updates
    (events (refresh_if_missing sample_loads render sample_env stale_catalog false
               (PList sample_stats) stale_container)) = 1%nat /\
  cards_gets
    (events (refresh_if_missing sample_loads render sample_env stale_catalog false
               (PList sample_stats) stale_container)) = 1%nat.
Proof.
  assert (H : Forall (fun t => is_stat_record t = true) sample_stats)
    by (repeat constructor).
  split; [exact H|].
  destruct (forced_update_condition sample_loads render sample_env stale_catalog false
              sample_stats stale_container H) as (A & _ & C & _ & _).
  assert (F : forced_updates
                (events (refresh_if_missing sample_loads render sample_env stale_catalog
                           false (PList sample_stats) stale_container)) = 1%nat).
  { apply A. split; [|reflexivity].
    exists stat_stranger. split; [right; left; reflexivity | reflexivity]. }
  split; [exact F|]. rewrite C. exact F.
Defined.

Lemma placement_dist_keys_witness :
  combined_data card_other stat_other (PInt 200) = Ok combined_other /\
  exists dist values,
    py_get stat_other "final_placement_distribution" (PList []) = Ok dist /\
    py_iter dist = Ok values /\
    py_get combined_other "placement_dist" PNone = Ok (PDict (placement_dist values)) /\
    List.length (placement_dist values) = List.length values /\
    (forall i val,
        nth_error values i = Some val ->
        nth_error (placement_dist values) i = Some (dec (Z.of_nat i + 1) ++ "st", val)) /\
    dec (Z.of_nat 1 + 1) ++ "st" = "2st".
Proof.
  split; [reflexivity|].
  apply (placement_dist_keys card_other stat_other (PInt 200) combined_other).
  reflexivity.
Defined.




Lemma unknown_trinkets_are_skipped_witness :
  catalog_ok sample_catalog = true /\
  Forall (fun t => is_stat_record t = true) sample_stats /\
  result (process_and_save render sample_env sample_catalog (PList sample_stats)
            stale_container) = Ok tt /\
  In (Log WARNING (MsgTrinketNotFound (PInt 999)))
     (events (process_and_save render sample_env sample_catalog (PList sample_stats)
                stale_container)).
Proof.
  assert (H : Forall (fun t => is_stat_record t = true) sample_stats)
    by (repeat constructor).
  split; [reflexivity|]. split; [exact H|].
  destruct (unknown_trinkets_are_skipped sample_loads render render sample_env
              sample_catalog sample_stats stale_container eq_refl H) as (R & W & _).
  split; [exact R|].
  apply (W stat_stranger); [right; left; reflexivity | reflexivity].
Defined.

Lemma output_is_sorted_witness :
  catalog_ok sample_catalog = true /\
  Forall (fun t => is_stat_record t = true) sample_stats /\
  exists sorted_trinkets,
    published (events (process_and_save render sample_env sample_catalog
                         (PList sample_stats) stale_container)) =
      [render (PList sorted_trinkets)] /\
    StronglySorted placement_le sorted_trinkets.
Proof.
  assert (H : Forall (fun t => is_stat_record t = true) sample_stats)
    by (repeat constructor).
  split; [reflexivity|]. split; [exact H|].
  destruct (output_is_sorted sample_loads render render sample_env sample_catalog
              sample_stats stale_container eq_refl H)
    as (processed & sorted_trinkets & _ & _ & _ & P & S & _).
  exists sorted_trinkets. split; [exact P | exact S].
Defined.

Lemma same_upstream_same_output_witness :
  same_upstream sample_env stale_container late_env used_container /\
  published (events (main sample_loads render render sample_env stale_container)) =
  published (events (main sample_loads render render late_env used_container)).
Proof.
  assert (U : same_upstream sample_env stale_container late_env used_container)
    by (repeat split).
  split; [exact U|].
  destruct (same_upstream_same_output sample_loads render render
              sample_env late_env stale_container used_container U) as (_ & _ & E).
  apply E; reflexivity.
Defined.

Lemma empty_is_treated_as_missing_witness :
  connection_string_set empty_api_env = true /\
  connect_error empty_api_env = false /\
  result (get_card_data_and_map sample_loads render empty_api_env false empty_container) =
    Ok (Some [], true) /\
  main sample_loads render render empty_api_env empty_container =
    after (greeting empty_api_env)
      {| result := Ok (Some {| body := NoCardData; status_code := 500 |});
         final := final (get_card_data_and_map sample_loads render empty_api_env false
                           empty_container);
         events := events (get_card_data_and_map sample_loads render empty_api_env false
                             empty_container) |}.
Proof.
  repeat (split; [reflexivity|]).
  destruct (empty_is_treated_as_missing sample_loads render render empty_api_env
              empty_container eq_refl eq_refl) as (A & _).
  apply (A (Some []) true); [reflexivity | right; reflexivity].
Defined.

Lemma no_client_no_request_witness :
  (connection_string_set unconfigured_env = false \/ connect_error unconfigured_env = true) /\
  result (main sample_loads render render unconfigured_env stale_container) =
    Ok (Some {| body := ServerConfigError; status_code := 500 |}) /\
  final (main sample_loads render render unconfigured_env stale_container) =
    stale_container /\
  forallb is_log
    (events (main sample_loads render render unconfigured_env stale_container)) = true.
Proof.
  assert (H : connection_string_set unconfigured_env = false \/
              connect_error unconfigured_env = true) by (left; reflexivity).
  split; [exact H|].
  exact (no_client_no_request sample_loads render render unconfigured_env
           stale_container H).
Defined.


Lemma forced_update_failure_witness :
  Forall (fun t => is_stat_record t = true) sample_stats /\
  existsb (unknown stale_catalog) sample_stats = true /\
  cards_response api_down_env = None /\
  refresh_if_missing sample_loads render api_down_env stale_catalog false
    (PList sample_stats) stale_container =
    {| result := Ok (inl {| body := CardUpdateFailed; status_code := 500 |});
       final := stale_container;
       events := [ Log INFO MsgForcingUpdate; Log INFO MsgDownloadingCards; CardsGet;
                   Log ERROR MsgCardsApiFailed ] |}.
Proof.
  assert (H : Forall (fun t => is_stat_record t = true) sample_stats)
    by (repeat constructor).
  split; [exact H|]. repeat (split; [reflexivity|]).
  apply (forced_update_failure sample_loads render api_down_env stale_catalog
           sample_stats stale_container H); reflexivity.
Defined.

Lemma result_upload_failure_is_logged_witness :
  catalog_ok sample_catalog = true /\
  Forall (fun t => is_stat_record t = true) sample_stats /\
  result_upload_error late_env = true /\
  result (process_and_save render late_env sample_catalog (PList sample_stats)
            used_container) = Ok tt /\
  final (process_and_save render late_env sample_catalog (PList sample_stats)
           used_container) = used_container /\
  exists data,
    events (process_and_save render late_env sample_catalog (PList sample_stats)
              used_container) =
      (map not_found_warning (filter (unknown sample_catalog) sample_stats) ++
       [ResultUpload data; Log ERROR (MsgSaveFailed StorageError)])%list.
Proof.
  assert (H : Forall (fun t => is_stat_record t = true) sample_stats)
    by (repeat constructor).
  split; [reflexivity|]. split; [exact H|]. split; [reflexivity|].
  exact (result_upload_failure_is_logged sample_loads render render late_env
           sample_catalog sample_stats used_container eq_refl H eq_refl).
Defined.

Lemma card_map_last_wins_witness :
  build_card_map (PList [card_thing; card_other; card_reprint]) =
    Ok [(PInt 100, card_reprint); (PInt 200, card_other)] /\
  hashable (PFloat false 100 0) = true /\
  cm_lookup (PFloat false 100 0) [(PInt 100, card_reprint); (PInt 200, card_other)] =
    last_card_with (PFloat false 100 0) [card_thing; card_other; card_reprint] None.
Proof.
  split; [reflexivity|]. split; [reflexivity|].
  apply (card_map_last_wins [card_thing; card_other; card_reprint]); reflexivity.
Defined.

Lemma cache_round_trip_witness :
  cards_response sample_env = Some (PList [card_thing; card_other]) /\
  cards_upload_error sample_env = false /\
  build_card_map (PList [card_thing; card_other]) = Ok sample_catalog /\
  exists_error sample_env = false /\
  download_error sample_env = false /\
  echo_loads (render (PList [card_thing; card_other])) =
    Some (PList [card_thing; card_other]) /\
  result (get_card_data_and_map echo_loads render sample_env true empty_container) =
    Ok (Some sample_catalog, true) /\
  get_card_data_and_map echo_loads render sample_env false
    (final (get_card_data_and_map echo_loads render sample_env true empty_container)) =
    {| result := Ok (Some sample_catalog, false);
       final := final (get_card_data_and_map echo_loads render sample_env true
                         empty_container);
       events := [BlobExists; Log INFO MsgLoadingFromBlob; BlobDownload] |}.
Proof.
  repeat (split; [reflexivity|]).
  apply (cache_round_trip echo_loads render sample_env empty_container
           (PList [card_thing; card_other]) sample_catalog); reflexivity.
Defined.

Lemma response_means_no_output_witness :
  result (main sample_loads render render empty_api_env empty_container) =
    Ok (Some {| body := NoCardData; status_code := 500 |}) /\
  status_code {| body := NoCardData; status_code := 500 |} = 500 /\
  published (events (main sample_loads render render empty_api_env empty_container)) = [] /\
  result_blob (final (main sample_loads render render empty_api_env empty_container)) =
    result_blob empty_container.
Proof.
  split; [reflexivity|].
  apply (response_means_no_output sample_loads render render empty_api_env
           empty_container). reflexivity.
Defined.

Lemma absent_fields_get_defaults_witness :
  combined_data card_reprint
    (PDict [("trinket_dbf_id", PInt 100); ("avg_final_placement", PInt 4)]) (PInt 100) =
    Ok (PDict [ ("name", PStr "Thing, reprinted"); ("avg_placement", PInt 4);
                ("pick_rate", PStr "0.00%"); ("tier", PStr "N/A"); ("group", PNone);
                ("text", PStr ""); ("placement_dist", PDict []);
                ("dbf_id", PInt 100) ]) /\
  py_get (PDict [ ("name", PStr "Thing, reprinted"); ("avg_placement", PInt 4);
                  ("pick_rate", PStr "0.00%"); ("tier", PStr "N/A"); ("group", PNone);
                  ("text", PStr ""); ("placement_dist", PDict []);
                  ("dbf_id", PInt 100) ]) "pick_rate" PNone = Ok (PStr "0.00%").
Proof.
  split; [reflexivity|].
  refine (proj1 (absent_fields_get_defaults
                   [("dbfId", PInt 100); ("name", PStr "Thing, reprinted")]
                   [("trinket_dbf_id", PInt 100); ("avg_final_placement", PInt 4)]
                   (PInt 100) _ eq_refl) eq_refl).
Defined.

Lemma present_fields_must_fit_witness :
  combined_data card_other stat_other (PInt 200) = Ok combined_other /\
  is_str (PStr "b") = true.
Proof.
  split; [reflexivity|].
  refine (proj1 (present_fields_must_fit
                   [("dbfId", PInt 200); ("name", PStr "Other");
                    ("text", PStr "Hello\n<b>World</b>")]
                   [ ("trinket_dbf_id", PInt 200);
                     ("avg_final_placement", PFloat false 3 (-1));
                     ("pick_rate", PFloat false 85 (-1));
                     ("tier", PStr "b");
                     ("group", PInt 2);
                     ("final_placement_distribution", PList [PInt 10; PInt 20; PInt 5]) ]
                   (PInt 200) combined_other eq_refl) (PStr "b") eq_refl).
Defined.

Lemma integer_pick_rate_witness :
  Z.abs 12 < 2 ^ 53 /\ format_2f (PInt 12) = Ok "12.00".
Proof.
  split; [reflexivity|].
  exact (integer_pick_rate 12 eq_refl).
Defined.

Lemma plain_text_unchanged_witness :
  occurs "\" "Gain +2 Attack." = false /\
  occurs "<" "Gain +2 Attack." = false /\
  clean_text "Gain +2 Attack." = "Gain +2 Attack.".
Proof.
  repeat (split; [reflexivity|]).
  apply plain_text_unchanged; reflexivity.
Defined.
